(** * kraft configure: option normalization, target resolution, orchestration

    A shallow embedding of [kraft/cmd/configure.py] (functions
    [cmd_configure] and [kraft_configure]) and the properties of its
    specification.

    Python strings are [string]; Python lists are [list]; [None]-able values
    are [option]; exceptions are an inductive type [exn] threaded through a
    small trace-and-error monad [M]; the collaborators the module calls
    (application model, prompts, fetch workflow, terminal) are a record
    [World] of response functions, indexed by the number of the entry into
    [cmd_configure] that makes the call. *)

From Stdlib Require Import String Ascii List Bool Arith Lia.
Import ListNotations.
Open Scope string_scope.
Open Scope list_scope.

(** ** Python string primitives used by the module *)

Module PyStr.

(** [s.startswith(p)] *)
Fixpoint startswith (p s : string) : bool :=
  match p with
  | EmptyString => true
  | String a p' =>
      match s with
      | EmptyString => false
      | String b s' => Ascii.eqb a b && startswith p' s'
      end
  end.

(** [c in s] for a one-character string [c] *)
Fixpoint contains (c : ascii) (s : string) : bool :=
  match s with
  | EmptyString => false
  | String b s' => Ascii.eqb c b || contains c s'
  end.

(** [x in xs] for a list of strings: membership by string equality *)
Definition mem (x : string) (xs : list string) : bool :=
  existsb (String.eqb x) xs.

(** [fmt % args] restricted to the conversions [%s] and [%%].  [None] is the
    exception Python raises: too few or too many arguments ([TypeError]), a
    dangling [%] or a conversion outside this fragment. *)
Fixpoint format (fmt : string) (args : list string) : option string :=
  match fmt with
  | EmptyString =>
      match args with
      | [] => Some EmptyString
      | _ :: _ => None
      end
  | String c rest =>
      if Ascii.eqb c "%"%char then
        match rest with
        | String d rest' =>
            if Ascii.eqb d "s"%char then
              match args with
              | a :: args' => option_map (append a) (format rest' args')
              | [] => None
              end
            else if Ascii.eqb d "%"%char then
              option_map (String "%"%char) (format rest' args)
            else None
        | EmptyString => None
        end
      else option_map (String c) (format rest args)
  end.

(** [os.path.basename(p)] (posixpath): what follows the last ['/'].
    [basename_from acc p] carries in [acc] the component read so far. *)
Fixpoint basename_from (acc p : string) : string :=
  match p with
  | EmptyString => acc
  | String c p' =>
      if Ascii.eqb c "/"%char then basename_from EmptyString p'
      else basename_from (acc ++ String c EmptyString)%string p'
  end.

Definition basename (p : string) : string := basename_from EmptyString p.

End PyStr.

(** ** Constants of [kraft.const] *)

Module Const.

(** The four constants are imported from [kraft.const], which is not among
    the sources.  [configure.py] uses [KCONFIG] as a [%]-format of one
    argument and [KCONFIG_EQ] as a [%]-format of two. *)

(** Modelled from the spec: [KCONFIG], missing from the sources, puts the
    key namespace prefix in front of a token.  The prefix [ns] itself stays
    a parameter. *)
Definition KCONFIG (ns : string) : string := ns ++ "%s".

(** Modelled from the spec: [KCONFIG_EQ], missing from the sources,
    serializes an assignment as [KEY=VALUE]. *)
Definition KCONFIG_EQ : string := "%s=%s".

(** Modelled from the spec: [KCONFIG_Y], missing from the sources, is the
    value [y] of an enabled key. *)
Definition KCONFIG_Y : string := "y".

(** Modelled from the spec: [KCONFIG_N], missing from the sources, is the
    value [n] of a disabled key. *)
Definition KCONFIG_N : string := "n".

End Const.

(** ** Option normalization ([cmd_configure], lines 127-145) *)

Module Normalizer.
Import PyStr Const.

(** The ways the three loops stop early.  [ConflictingOption n] is the branch
    that logs ['Cannot specify same option with multiple values: %s' % n] and
    calls [sys.exit(1)]; [MissingOptionValue o] the one that logs
    ['Missing value for --set option: %s' % o] and calls [sys.exit(1)];
    [FormatError] is the [TypeError] of a [%] that does not fit its
    arguments. *)
Inductive norm_error : Type :=
| ConflictingOption (n : string)
| MissingOptionValue (o : string)
| FormatError.

Inductive norm_result : Type :=
| Options (options : list string)
| Failed (e : norm_error).

Section WithNamespace.
Variable ns : string.

(** [if not y.startswith(KCONFIG): y = KCONFIG % y] *)
Definition namespaced (tok : string) : option string :=
  if startswith (KCONFIG ns) tok then Some tok
  else format (KCONFIG ns) [tok].

(** [for y in yes: ...] *)
Fixpoint enable_loop (yes : list string) (options : list string) : norm_result :=
  match yes with
  | [] => Options options
  | y :: yes' =>
      match namespaced y with
      | None => Failed FormatError
      | Some y1 =>
          match format KCONFIG_EQ [y1; KCONFIG_Y] with
          | None => Failed FormatError
          | Some a => enable_loop yes' (options ++ [a])
          end
      end
  end.

(** [for n in no: ...] *)
Fixpoint disable_loop (no : list string) (options : list string) : norm_result :=
  match no with
  | [] => Options options
  | n :: no' =>
      match namespaced n with
      | None => Failed FormatError
      | Some n1 =>
          if mem n1 options then Failed (ConflictingOption n1)
          else
            match format KCONFIG_EQ [n1; KCONFIG_N] with
            | None => Failed FormatError
            | Some a => disable_loop no' (options ++ [a])
            end
      end
  end.

(** [for o in opts: ...] *)
Fixpoint set_loop (opts : list string) (options : list string) : norm_result :=
  match opts with
  | [] => Options options
  | o :: opts' =>
      match namespaced o with
      | None => Failed FormatError
      | Some o1 =>
          if negb (contains "="%char o1) then Failed (MissingOptionValue o1)
          else set_loop opts' (options ++ [o1])
      end
  end.

(** The three loops in sequence, starting from [options = list()]. *)
Definition normalize (yes no opts : list string) : norm_result :=
  match enable_loop yes [] with
  | Failed e => Failed e
  | Options o1 =>
      match disable_loop no o1 with
      | Failed e => Failed e
      | Options o2 => set_loop opts o2
      end
  end.

End WithNamespace.

End Normalizer.

(** ** Data model *)

Module Model.
Import PyStr.

(** Modelled from the spec: the target class belongs to the application
    model, which is not among the sources.  A target has an optional name, a
    mandatory architecture and platform and possibly a binary path;
    [configure.py] reads them as [t.name], [t.architecture.name],
    [t.platform.name] and [t.binary]. *)
Record Target : Type := {
  name : option string;
  architecture : string;
  platform : string;
  binary : option string
}.

(** Modelled from the spec: [Application] is defined in [kraft.app], which
    is not among the sources.  The record holds what [kraft_configure] reads
    from it: [app.config.targets.all()], [app.binaries] and
    [app.is_configured()].  The entries of [app.binaries] are handled as
    targets by the code: it reads [.name] and [.binary] from them, assigns
    them to [target] and passes them to [app.configure]. *)
Record Application : Type := {
  targets : list Target;
  binaries : list Target;
  is_configured : bool
}.

(** The Python variable [target] of [kraft_configure]: [None], the name given
    on the command line, or a target object. *)
Inductive target_value : Type :=
| TNone
| TName (s : string)
| TObj (t : Target).

(** Exceptions.  [SystemExit] is the one raised by [sys.exit]; it is not an
    [Exception] and passes through [except Exception].  [OtherException]
    stands for any other [Exception] of a collaborator. *)
Inductive exn : Type :=
| SystemExit (code : nat)
| MissingComponent (component : string)
| CannotConfigureApplication (workdir : string)
| KraftError (msg : string)
| ValueError (msg : string)
| TypeError
| OtherException (msg : string).

Definition is_Exception (e : exn) : bool :=
  match e with
  | SystemExit _ => false
  | _ => true
  end.

Inductive level : Type := Debug | Warn | Critical.

(** What is logged: a text, [str(e)] of an exception, or
    [traceback.format_exc()]. *)
Inductive message : Type :=
| Text (s : string)
| OfExn (e : exn)
| Traceback.

(** Calls to the collaborators, in the order they are made. *)
Inductive event : Type :=
| Preflight
| Log (l : level) (m : message)
| FromWorkdir (workdir : string) (force_init : bool) (use_versions : list string)
| OpenMenuconfig
| Confirm (question : string)
| Prompt (choices : list string)
| Configure (target : target_value) (options : list string) (force_configure : bool)
| SaveYaml
| Pull (component : string)
| Forward.

Inductive res (A : Type) : Type :=
| Ok (a : A)
| Raise (e : exn).
Arguments Ok {A} a.
Arguments Raise {A} e.

(** The collaborators.  The first argument of a response function is the
    number of the entry into [cmd_configure] (0 for the invocation, 1 for
    the first re-entry, ...) during which the call is made.  A call that
    returns nothing answers [None] or the exception it raises.
    [isatty] is [sys.stdout.isatty()], [verbose] is [ctx.obj.verbose],
    [getcwd] is [os.getcwd()], [path_exists] is [os.path.exists],
    [preflight] is [kraft_list_preflight], [from_workdir] is
    [Application.from_workdir], [confirm] is [click.confirm], [prompt] is
    [inquirer.prompt] followed by the reading of its ['target'] entry (the
    prompt returns [None] when it is cancelled), [pull] is
    [kraft_list_pull].  [forward_keeps_params] is the behaviour of the
    installed click when [ctx.forward] makes the context of the forwarded
    call: click 8 records the arguments of the call in the new context's
    [params], click 7 leaves them empty. *)
Record World : Type := {
  forward_keeps_params : bool;
  isatty : bool;
  verbose : bool;
  getcwd : string;
  path_exists : string -> bool;
  preflight : nat -> option exn;
  from_workdir : nat -> string -> bool -> list string -> res Application;
  open_menuconfig : nat -> option exn;
  confirm : nat -> string -> bool;
  prompt : nat -> list string -> res (option string);
  configure : nat -> target_value -> list string -> bool -> option exn;
  save_yaml : nat -> option exn;
  pull : nat -> string -> option exn
}.

(** The parameters click hands to [cmd_configure] ([ctx.params]). *)
Record Params : Type := {
  target : option string;
  plat : option string;
  arch : option string;
  force_configure : bool;
  show_menuconfig : bool;
  workdir : option string;
  yes : list string;
  no : list string;
  opts : list string;
  use_versions : list string
}.

Definition with_force (p : Params) (b : bool) : Params :=
  {| target := target p; plat := plat p; arch := arch p;
     force_configure := b; show_menuconfig := show_menuconfig p;
     workdir := workdir p; yes := yes p; no := no p; opts := opts p;
     use_versions := use_versions p |}.

(** The value of each parameter when it is not given: the declared options
    have no default, the flags are off, the repeated options are empty. *)
Definition default_params : Params :=
  {| target := None; plat := None; arch := None; force_configure := false;
     show_menuconfig := false; workdir := None; yes := []; no := [];
     opts := []; use_versions := [] |}.

(** *** A computation: the calls made so far and a value or an exception *)

Definition M (A : Type) : Type := (list event * res A)%type.

Definition ret {A} (a : A) : M A := ([], Ok a).
Definition raise {A} (e : exn) : M A := ([], Raise e).
Definition emit (ev : event) : M unit := ([ev], Ok tt).

Definition bind {A B} (m : M A) (f : A -> M B) : M B :=
  match m with
  | (tr, Ok a) => let (tr', r) := f a in (tr ++ tr', r)
  | (tr, Raise e) => (tr, Raise e)
  end.

(** A call that returns a value or raises. *)
Definition call {A} (ev : event) (r : res A) : M A := ([ev], r).

(** A call that returns nothing or raises. *)
Definition call_ (ev : event) (r : option exn) : M unit :=
  ([ev], match r with None => Ok tt | Some e => Raise e end).

Definition lift {A} (r : res A) : M A := ([], r).

Declare Scope py_scope.
Delimit Scope py_scope with py.
Notation "x <- m ;; k" := (bind m (fun x => k))
  (at level 61, m at next level, right associativity) : py_scope.
Notation "m ;; k" := (bind m (fun _ => k))
  (at level 61, right associativity) : py_scope.

End Model.

(** ** Target resolution ([kraft_configure], lines 230-273) *)

Module Resolver.
Import PyStr Model.

(** [x == s] for an optional hint [x] and a string [s] *)
Definition hint_eq (x : option string) (s : string) : bool :=
  match x with
  | Some a => String.eqb a s
  | None => false
  end.

(** [target is not None and target == t.name] *)
Definition name_matches (target : option string) (t : Target) : bool :=
  match target, name t with
  | Some a, Some b => String.eqb a b
  | _, _ => false
  end.

(** [arch == t.architecture.name and plat == t.platform.name] *)
Definition hw_matches (arch plat : option string) (t : Target) : bool :=
  hint_eq arch (architecture t) && hint_eq plat (platform t).

(** The [for t in app.config.targets.all()] loop with its two [break]s:
    [Some t] when it breaks at [t], [None] when it runs to the end. *)
Fixpoint scan (target arch plat : option string) (ts : list Target) : option Target :=
  match ts with
  | [] => None
  | t :: ts' =>
      if name_matches target t then Some t
      else if hw_matches arch plat t then Some t
      else scan target arch plat ts'
  end.

(** The scan stops at [t] when one of its two tests holds. *)
Definition qualifies (target arch plat : option string) (t : Target) : bool :=
  name_matches target t || hw_matches arch plat t.

Definition of_hint (target : option string) : target_value :=
  match target with
  | None => TNone
  | Some s => TName s
  end.

(** Lines 230-247: the value of [target] after the [if]/[elif]/[else]. *)
Definition resolve_auto (app : Application) (target arch plat : option string)
  : target_value :=
  match targets app with
  | [t] => TObj t
  | _ =>
      match binaries app with
      | [b] => TObj b
      | _ =>
          match scan target arch plat (targets app) with
          | Some t => TObj t
          | None => of_hint target
          end
      end
  end.

(** Lines 254-256: the label of one entry of [app.binaries];
    [os.path.basename(None)] raises [TypeError]. *)
Definition label (t : Target) : res string :=
  match binary t with
  | None => Raise TypeError
  | Some p =>
      match name t with
      | Some n => Ok (basename p ++ " (" ++ n ++ ")")%string
      | None => Ok (basename p)
      end
  end.

(** Lines 251-258: the list of choices. *)
Fixpoint labels (bs : list Target) : res (list string) :=
  match bs with
  | [] => Ok []
  | t :: bs' =>
      match label t with
      | Raise e => Raise e
      | Ok l =>
          match labels bs' with
          | Raise e => Raise e
          | Ok ls => Ok (l :: ls)
          end
      end
  end.

(** Lines 270-273: from the answer back to an entry of [app.binaries].
    [answers] is what [inquirer.prompt] returned, [None] or the chosen
    label; subscripting [None] raises [TypeError]. *)
Fixpoint work_backwards (answers : option string) (bs : list Target)
  : res target_value :=
  match bs with
  | [] => Ok TNone
  | t :: bs' =>
      match answers with
      | None => Raise TypeError
      | Some a =>
          match binary t with
          | None => Raise TypeError
          | Some p =>
              if String.eqb a (basename p) then Ok (TObj t)
              else work_backwards answers bs'
          end
      end
  end.

Open Scope py_scope.

(** Lines 250-273: the body of [if target is None]. *)
Definition interactive (w : World) (round : nat) (app : Application)
  : M target_value :=
  match labels (binaries app) with
  | Raise e => raise e
  | Ok choices =>
      answers <- call (Prompt choices) (prompt w round choices) ;;
      lift (work_backwards answers (binaries app))
  end.

(** Lines 230-273. *)
Definition target_resolution (w : World) (round : nat) (app : Application)
    (target arch plat : option string) : M target_value :=
  match resolve_auto app target arch plat with
  | TNone => interactive w round app
  | v => ret v
  end.

End Resolver.

(** ** Orchestration *)

Module Orchestration.
Import PyStr Const Normalizer Model Resolver.
Open Scope py_scope.

(** ["%s is already configured, would you like to overwrite configuration?" % workdir] *)
Definition overwrite_question (wd : string) : string :=
  (wd ++ " is already configured, would you like to overwrite configuration?")%string.

(** Lines 224-228: the force flag after the already-configured check. *)
Definition already_configured_check (w : World) (round : nat)
    (app : Application) (wd : string) (force_configure : bool) : M bool :=
  if is_configured app && negb force_configure then
    let q := overwrite_question wd in
    _ <- emit (Confirm q) ;;
    if confirm w round q then ret true
    else raise (CannotConfigureApplication wd)
  else ret force_configure.

(** Lines 224-281: what [kraft_configure] does with the loaded application
    when the menu editor is not asked for. *)
Definition configure_loaded (w : World) (round : nat) (app : Application)
    (wd : string) (target plat arch : option string) (force_configure : bool)
    (options : list string) : M unit :=
  force <- already_configured_check w round app wd force_configure ;;
  tv <- target_resolution w round app target arch plat ;;
  _ <- call_ (Configure tv options force) (configure w round tv options force) ;;
  call_ SaveYaml (save_yaml w round).

(** [kraft_configure], lines 199-281. *)
Definition kraft_configure (w : World) (round : nat)
    (workdir target plat arch : option string)
    (force_configure show_menuconfig : bool)
    (options use_versions : list string) : M unit :=
  match workdir with
  | None => raise (ValueError "working directory is empty: None")
  | Some wd =>
      if negb (path_exists w wd) then
        raise (ValueError ("working directory is empty: " ++ wd)%string)
      else
        _ <- emit (Log Debug (Text ("Configuring " ++ wd ++ "...")%string)) ;;
        app <- call (FromWorkdir wd force_configure use_versions)
                    (from_workdir w round wd force_configure use_versions) ;;
        if show_menuconfig then
          if isatty w then call_ OpenMenuconfig (open_menuconfig w round)
          else raise (KraftError "Cannot open menuconfig in non-TTY environment")
        else
          configure_loaded w round app wd target plat arch force_configure options
  end.

(** [if ctx.obj.verbose: logger.critical(traceback.format_exc())] *)
Definition verbose_traceback (w : World) : list event :=
  if verbose w then [Log Critical Traceback] else [].

(** Lines 124-125: [if workdir is None: workdir = os.getcwd()] *)
Definition effective_workdir (w : World) (p : Params) : string :=
  match workdir p with
  | None => getcwd w
  | Some d => d
  end.

(** Lines 147-158: the body of the [try]. *)
Definition configure_attempt (w : World) (round : nat) (p : Params)
    (options : list string) : M unit :=
  kraft_configure w round (Some (effective_workdir w p)) (target p) (plat p)
    (arch p) (force_configure p) (show_menuconfig p) options (use_versions p).

(** ["Would you like to pull %s?" % e.component] *)
Definition pull_question (component : string) : string :=
  ("Would you like to pull " ++ component ++ "?")%string.

(** The arguments of [ctx.forward(cmd_configure, force_configure=True)]:
    the parameters held by the current context [ctx.params], with
    [force_configure] set; a parameter the context does not hold ([None]:
    the context holds none) takes its default. *)
Definition forwarded (ctx_params : option Params) : Params :=
  with_force (match ctx_params with
              | Some q => q
              | None => default_params
              end) true.

(** [ctx.params] of the context click makes for the forwarded call. *)
Definition subcontext (w : World) (args : Params) : option Params :=
  if forward_keeps_params w then Some args else None.

Section WithNamespace.
Variable ns : string.

(** Lines 160-186: the handler of [MissingComponent].  [again] is the
    re-entry into [cmd_configure] made by [ctx.forward]; [None] when the
    re-entry does not come back within the fuel. *)
Definition on_missing_component (w : World) (round : nat) (p : Params)
    (component : string) (again : option (M unit)) : option (M unit) :=
  let warned :=
    if force_configure p then []
    else [Log Warn (OfExn (MissingComponent component))] in
  let q := pull_question component in
  let asked := if force_configure p then [] else [Confirm q] in
  if force_configure p || confirm w round q then
    match pull w round component with
    | Some e =>
        if is_Exception e then
          Some (warned ++ asked ++ [Pull component] ++ verbose_traceback w,
                Raise (SystemExit 1))
        else Some (warned ++ asked ++ [Pull component], Raise e)
    | None =>
        match again with
        | None => None
        | Some (tr, r) =>
            Some (warned ++ asked ++ [Pull component; Forward] ++ tr, r)
        end
    end
  else if verbose w then
    Some (warned ++ asked ++ [Log Critical Traceback], Raise (SystemExit 1))
  else Some (warned ++ asked, Ok tt).

(** [cmd_configure], lines 110-195, entered with the arguments [p] in a
    context whose [ctx.params] is [ctx_params].  [fuel] bounds the number of
    entries (the invocation and its re-entries); [None] means that the run
    has not ended within that many entries. *)
Fixpoint cmd_configure (fuel : nat) (w : World) (round : nat)
    (ctx_params : option Params) (p : Params) : option (M unit) :=
  match fuel with
  | 0 => None
  | S fuel' =>
      match preflight w round with
      | Some e => Some ([Preflight], Raise e)
      | None =>
          match normalize ns (yes p) (no p) (opts p) with
          | Failed (ConflictingOption n) =>
              Some ([Preflight;
                     Log Critical (Text ("Cannot specify same option with multiple values: " ++ n)%string)],
                    Raise (SystemExit 1))
          | Failed (MissingOptionValue o) =>
              Some ([Preflight;
                     Log Critical (Text ("Missing value for --set option: " ++ o)%string)],
                    Raise (SystemExit 1))
          | Failed FormatError => Some ([Preflight], Raise TypeError)
          | Options options =>
              match configure_attempt w round p options with
              | (tr, Ok _) => Some (Preflight :: tr, Ok tt)
              | (tr, Raise (MissingComponent c)) =>
                  match on_missing_component w round p c
                          (cmd_configure fuel' w (S round)
                             (subcontext w (forwarded ctx_params))
                             (forwarded ctx_params)) with
                  | None => None
                  | Some (tr', r) => Some (Preflight :: tr ++ tr', r)
                  end
              | (tr, Raise (SystemExit c)) =>
                  Some (Preflight :: tr, Raise (SystemExit c))
              | (tr, Raise e) =>
                  Some (Preflight :: tr ++ [Log Critical (OfExn e)] ++ verbose_traceback w,
                        Raise (SystemExit 1))
              end
          end
      end
  end.

(** The invocation from the command line: click calls [cmd_configure] with
    the parsed parameters, which are also the [ctx.params] of its
    context. *)
Definition invocation (fuel : nat) (w : World) (p : Params) : option (M unit) :=
  cmd_configure fuel w 0 (Some p) p.

End WithNamespace.

End Orchestration.

Import PyStr Const Normalizer Model Resolver Orchestration.

(** ** Observations on runs *)

Module Observe.

Definition is_pull (ev : event) : bool :=
  match ev with Pull _ => true | _ => false end.

Definition is_forward (ev : event) : bool :=
  match ev with Forward => true | _ => false end.

(** Calls that read, configure or persist the application. *)
Definition touches_application (ev : event) : bool :=
  match ev with
  | FromWorkdir _ _ _ | OpenMenuconfig | Configure _ _ _ | SaveYaml => true
  | _ => false
  end.

(** Calls that belong to target resolution or come after it. *)
Definition resolves_target (ev : event) : bool :=
  match ev with
  | Prompt _ | Configure _ _ _ | SaveYaml => true
  | _ => false
  end.

(** The number of [kraft_list_pull] calls and of [ctx.forward] re-entries
    in a trace. *)
Definition fetches (tr : list event) : nat := length (filter is_pull tr).
Definition reentries (tr : list event) : nat := length (filter is_forward tr).

(** A trace without fetch and without re-entry. *)
Definition quiet (tr : list event) : Prop :=
  Forall (fun ev => is_pull ev = false /\ is_forward ev = false) tr.

(** The context parameters and the arguments of the entry made [i]
    re-entries after an entry with the context parameters [cp] and the
    arguments [p]. *)
Fixpoint entry_at (w : World) (cp : option Params) (p : Params) (i : nat)
  : option Params * Params :=
  match i with
  | 0 => (cp, p)
  | S j => entry_at w (subcontext w (forwarded cp)) (forwarded cp) j
  end.

(** The arguments of the [i]-th re-entry of the invocation made with [p]. *)
Definition params_at (w : World) (p : Params) (i : nat) : Params :=
  snd (entry_at w (Some p) p i).

(** The attempt of this entry fails with [MissingComponent]. *)
Definition missing (w : World) (round : nat) (p : Params)
    (options : list string) : bool :=
  match snd (configure_attempt w round p options) with
  | Raise (MissingComponent _) => true
  | _ => false
  end.

(** The attempt of this entry fails with [MissingComponent], the fetch is
    agreed to (force mode, or the operator says yes) and succeeds. *)
Definition refetches (w : World) (round : nat) (p : Params)
    (options : list string) : bool :=
  match snd (configure_attempt w round p options) with
  | Raise (MissingComponent c) =>
      (force_configure p || confirm w round (pull_question c))
      && match pull w round c with None => true | Some _ => false end
  | _ => false
  end.

(** The same two conditions for an entry made with the arguments [p],
    whose options are normalized first; an entry that stops at normalization
    does neither. *)
Definition missing_at (ns : string) (w : World) (round : nat) (p : Params)
  : bool :=
  match normalize ns (yes p) (no p) (opts p) with
  | Options options => missing w round p options
  | Failed _ => false
  end.

Definition refetches_at (ns : string) (w : World) (round : nat) (p : Params)
  : bool :=
  match normalize ns (yes p) (no p) (opts p) with
  | Options options => refetches w round p options
  | Failed _ => false
  end.

End Observe.

(** ** Concrete applications and collaborators *)

Module Fixtures.
Import Observe.

Definition t_kvm : Target :=
  {| name := Some "kvm"; architecture := "x86_64"; platform := "kvm";
     binary := Some "build/app_kvm-x86_64" |}.

Definition t_xen : Target :=
  {| name := Some "xen"; architecture := "arm64"; platform := "xen";
     binary := Some "build/app_xen-arm64" |}.

Definition u_kvm : Target :=
  {| name := None; architecture := "x86_64"; platform := "kvm";
     binary := Some "build/app_kvm-x86_64" |}.

Definition u_xen : Target :=
  {| name := None; architecture := "arm64"; platform := "xen";
     binary := Some "build/app_xen-arm64" |}.

Definition app_one : Application :=
  {| targets := [t_kvm]; binaries := []; is_configured := false |}.

Definition app_two : Application :=
  {| targets := [t_kvm; t_xen]; binaries := [t_kvm; t_xen]; is_configured := false |}.

Definition app_two_one_binary : Application :=
  {| targets := [t_kvm; t_xen]; binaries := [t_xen]; is_configured := false |}.

Definition app_unnamed : Application :=
  {| targets := [u_kvm; u_xen]; binaries := [u_kvm; u_xen]; is_configured := false |}.

Definition app_no_binaries : Application :=
  {| targets := [t_kvm; t_xen]; binaries := []; is_configured := false |}.

(** The operator picks the first choice. *)
Definition first_choice (choices : list string) : res (option string) :=
  Ok (hd_error choices).

(** A world around one application: every collaborator succeeds, except
    that [app.configure] raises [MissingComponent "lwip"] during the first
    [failures] entries.  Click is one that keeps the forwarded parameters. *)
Definition world (tty : bool) (app : Application) (failures : nat) : World :=
  {| forward_keeps_params := true;
     isatty := tty;
     verbose := false;
     getcwd := "/app";
     path_exists := fun _ => true;
     preflight := fun _ => None;
     from_workdir := fun _ _ _ _ => Ok app;
     open_menuconfig := fun _ => None;
     confirm := fun _ _ => true;
     prompt := fun _ choices => first_choice choices;
     configure := fun round _ _ _ =>
       if Nat.ltb round failures then Some (MissingComponent "lwip") else None;
     save_yaml := fun _ => None;
     pull := fun _ _ => None |}.

(** The same world with a click that leaves the parameters of the
    forwarded call's context empty. *)
Definition world_click7 (tty : bool) (app : Application) (failures : nat)
  : World :=
  let w := world tty app failures in
  {| forward_keeps_params := false;
     isatty := isatty w; verbose := verbose w; getcwd := getcwd w;
     path_exists := path_exists w; preflight := preflight w;
     from_workdir := from_workdir w; open_menuconfig := open_menuconfig w;
     confirm := confirm w; prompt := prompt w; configure := configure w;
     save_yaml := save_yaml w; pull := pull w |}.

Definition params (tgt plt arc : option string) (menu : bool)
    (y n o : list string) : Params :=
  {| target := tgt; plat := plt; arch := arc; force_configure := false;
     show_menuconfig := menu; workdir := None; yes := y; no := n; opts := o;
     use_versions := [] |}.

End Fixtures.

Import Observe Fixtures.

(** ** Conditions on the calls of a run *)

Module Invariants.

(** One run of [kraft_configure] with the flag [force] and the list
    [options]: the application is loaded with that flag, [app.configure]
    gets that list and, in force mode, a true flag; a confirmation is asked
    only outside force mode; nothing is fetched and nothing re-entered. *)
Definition attempt_event (force : bool) (options : list string) (ev : event)
  : Prop :=
  match ev with
  | Configure _ o f => o = options /\ (force = true -> f = true)
  | FromWorkdir _ f _ => f = force
  | Confirm _ => force = false
  | Pull _ | Forward => False
  | _ => True
  end.

(** A run in force mode: every load and every [app.configure] is forced,
    and no confirmation is asked. *)
Definition forced_event (ev : event) : Prop :=
  match ev with
  | Configure _ _ f => f = true
  | FromWorkdir _ f _ => f = true
  | Confirm _ => False
  | _ => True
  end.


End Invariants.

Import Invariants.

(** * Properties *)

(** ** Strings and formatting *)

Section StringFacts.

Lemma append_empty_r (s : string) : (s ++ "")%string = s.
Proof.
  induction s as [|c s IH]; simpl; [reflexivity | now rewrite IH].
Qed.

Lemma append_assoc_r (a b c : string) :
  ((a ++ b) ++ c)%string = (a ++ (b ++ c))%string.
Proof.
  induction a as [|x a IH]; cbn [append]; [reflexivity | now rewrite IH].
Qed.

Lemma eqb_append_l (p x y : string) :
  String.eqb (p ++ x) (p ++ y) = String.eqb x y.
Proof.
  induction p as [|c p IH]; cbn [append String.eqb]; [reflexivity|].
  now rewrite Ascii.eqb_refl.
Qed.

Lemma eqb_append_longer (s : string) (c : ascii) (t : string) :
  String.eqb s (s ++ String c t) = false.
Proof.
  induction s as [|a s IH]; cbn [append String.eqb]; [reflexivity|].
  now rewrite Ascii.eqb_refl.
Qed.

Lemma contains_append_r (c : ascii) (p s : string) :
  contains c s = true -> contains c (p ++ s) = true.
Proof.
  intros H. induction p as [|a p IH]; cbn [append contains]; [exact H|].
  rewrite IH. apply orb_true_r.
Qed.

(** A token without ['%'] is never taken as already namespaced: the test
    compares with the format string, conversion included. *)
Lemma startswith_KCONFIG_percent (ns tok : string) :
  startswith (KCONFIG ns) tok = true -> contains "%"%char tok = true.
Proof.
  unfold KCONFIG. revert tok.
  induction ns as [|c ns IH]; intros tok H.
  - destruct tok as [|b tok]; cbn [append startswith] in H; [discriminate|].
    apply andb_true_iff in H. destruct H as [H _].
    cbn [contains]. now rewrite H.
  - destruct tok as [|b tok]; cbn [append startswith] in H; [discriminate|].
    apply andb_true_iff in H. destruct H as [_ H].
    cbn [contains]. rewrite (IH _ H). apply orb_true_r.
Qed.

Lemma format_KCONFIG (ns tok : string) :
  contains "%"%char ns = false ->
  format (KCONFIG ns) [tok] = Some (ns ++ tok)%string.
Proof.
  unfold KCONFIG. induction ns as [|c ns IH]; intros H.
  - simpl. now rewrite append_empty_r.
  - cbn [contains] in H. apply orb_false_iff in H. destruct H as [Hc Hns].
    cbn [append format]. rewrite Ascii.eqb_sym, Hc, (IH Hns). reflexivity.
Qed.

Lemma format_KCONFIG_EQ (k v : string) :
  format KCONFIG_EQ [k; v] = Some (k ++ "=" ++ v)%string.
Proof.
  unfold KCONFIG_EQ. simpl. now rewrite append_empty_r.
Qed.

Lemma namespaced_total (ns tok : string) :
  contains "%"%char ns = false ->
  exists k, namespaced ns tok = Some k.
Proof.
  intros H. unfold namespaced.
  destruct (startswith (KCONFIG ns) tok); [now exists tok|].
  rewrite (format_KCONFIG _ _ H). now eexists.
Qed.

Lemma namespaced_bare (ns tok : string) :
  contains "%"%char ns = false ->
  contains "%"%char tok = false ->
  namespaced ns tok = Some (ns ++ tok)%string.
Proof.
  intros Hns Htok. unfold namespaced.
  destruct (startswith (KCONFIG ns) tok) eqn:E.
  - apply startswith_KCONFIG_percent in E. congruence.
  - now apply format_KCONFIG.
Qed.

End StringFacts.

(** ** Option normalization *)

Example format_too_many_arguments : format "no conversion" ["a"] = None.
Proof. reflexivity. Qed.

Example namespaced_literal_prefix :
  namespaced "CONFIG_" "CONFIG_FOO" = Some "CONFIG_CONFIG_FOO"
  /\ namespaced "CONFIG_" "CONFIG_%sFOO" = Some "CONFIG_%sFOO".
Proof. split; reflexivity. Qed.

(** The conflict branch is taken when a disable token, once namespaced, is
    equal to a whole queued assignment. *)
Example conflict_on_whole_assignment :
  normalize "CONFIG_" ["a"] ["a=y"] [] = Failed (ConflictingOption "CONFIG_a=y")
  /\ normalize "CONFIG_" [] ["b"; "b=n"] [] = Failed (ConflictingOption "CONFIG_b=n").
Proof. split; reflexivity. Qed.

Example missing_value : normalize "CONFIG_" [] [] ["c"] = Failed (MissingOptionValue "CONFIG_c").
Proof. reflexivity. Qed.

Example basename_examples :
  basename "build/app_kvm-x86_64" = "app_kvm-x86_64"
  /\ basename "a/b/" = "" /\ basename "x" = "x".
Proof. repeat split; reflexivity. Qed.

(** C1 (the code departs from the claim).  Enabling and disabling one and the
    same key is not rejected: the disable loop looks for the key [n] among
    the queued assignments, which all have the form [KEY=VALUE], so the entry
    [KEY=y] queued by the enable loop is never found.  For every namespace
    prefix without ['%'] and every token [k], [yes=[k]], [no=[k]] yields the
    two assignments [K=y] and [K=n], [K] being the namespaced key. *)
Theorem C1_same_key_enabled_and_disabled_is_accepted :
  forall ns k : string,
    contains "%"%char ns = false ->
    exists K,
      namespaced ns k = Some K /\
      normalize ns [k] [k] [] = Options [(K ++ "=y")%string; (K ++ "=n")%string].
Proof.
  intros ns k Hns.
  destruct (namespaced_total ns k Hns) as [K HK].
  exists K. split; [exact HK|].
  unfold normalize. cbn [enable_loop disable_loop set_loop app].
  rewrite HK, !format_KCONFIG_EQ. cbn [app].
  unfold mem. cbn [existsb]. unfold KCONFIG_Y, KCONFIG_N.
  change (K ++ "=" ++ "y")%string with (K ++ String "=" "y")%string.
  rewrite eqb_append_longer. reflexivity.
Qed.

Lemma C1_same_key_enabled_and_disabled_is_accepted_witness :
  exists K,
    namespaced "CONFIG_" "a" = Some K /\
    normalize "CONFIG_" ["a"] ["a"] [] = Options [(K ++ "=y")%string; (K ++ "=n")%string].
Proof.
  apply (C1_same_key_enabled_and_disabled_is_accepted "CONFIG_" "a").
  reflexivity.
Defined.

(** C7, as stated, fails: the setting is namespaced like the other tokens. *)
Lemma C7_setting_is_prefixed_counterexample :
  normalize "KEY_" ["a"] ["b"] ["c=2"] <> Options ["KEY_a=y"; "KEY_b=n"; "c=2"]
  /\ normalize "CONFIG_" ["a"] ["b"] ["c=2"]
       <> Options ["CONFIG_a=y"; "CONFIG_b=n"; "c=2"].
Proof.
  split; vm_compute; discriminate.
Qed.

(** C7 (amended).  For [yes=["a"]], [no=["b"]], [opts=["c=2"]] and any
    namespace prefix without ['%'], normalization yields exactly three
    assignments, in this order: the namespaced ["a"] with value [y], the
    namespaced ["b"] with value [n], and the namespaced setting: the prefix
    is put in front of ["c=2"] as well. *)
Theorem C7_enable_disable_set_example :
  forall ns : string,
    contains "%"%char ns = false ->
    normalize ns ["a"] ["b"] ["c=2"]
    = Options [(ns ++ "a=y")%string; (ns ++ "b=n")%string; (ns ++ "c=2")%string].
Proof.
  intros ns Hns.
  unfold normalize. cbn [enable_loop disable_loop set_loop app].
  rewrite !(namespaced_bare ns) by (exact Hns || reflexivity).
  rewrite !format_KCONFIG_EQ. cbn [app].
  unfold mem. cbn [existsb]. unfold KCONFIG_Y, KCONFIG_N.
  rewrite !append_assoc_r. cbn [append].
  rewrite eqb_append_l.
  rewrite (contains_append_r "="%char ns "c=2") by reflexivity.
  reflexivity.
Qed.

Lemma C7_enable_disable_set_example_witness :
  normalize "KEY_" ["a"] ["b"] ["c=2"] = Options ["KEY_a=y"; "KEY_b=n"; "KEY_c=2"].
Proof.
  apply (C7_enable_disable_set_example "KEY_"). reflexivity.
Defined.

(** ** Target resolution *)

Section ResolverFacts.

Lemma scan_first (target arch plat : option string) (ts : list Target) :
  forall pre t post,
    ts = pre ++ t :: post ->
    Forall (fun u => qualifies target arch plat u = false) pre ->
    qualifies target arch plat t = true ->
    scan target arch plat ts = Some t.
Proof.
  intros pre. revert ts.
  induction pre as [|u pre IH]; intros ts t post -> Hpre Ht.
  - cbn [app scan]. unfold qualifies in Ht.
    destruct (name_matches target t); [reflexivity|].
    cbn [orb] in Ht. now rewrite Ht.
  - inversion Hpre as [|? ? Hu Hpre']; subst.
    unfold qualifies in Hu. apply orb_false_iff in Hu. destruct Hu as [Hn Hh].
    cbn [app scan]. rewrite Hn, Hh. now apply (IH _ t post).
Qed.

Lemma scan_some (target arch plat : option string) (ts : list Target) (t : Target) :
  scan target arch plat ts = Some t ->
  exists pre post,
    ts = pre ++ t :: post /\
    Forall (fun u => qualifies target arch plat u = false) pre /\
    qualifies target arch plat t = true.
Proof.
  induction ts as [|u ts IH]; cbn [scan]; [discriminate|].
  destruct (name_matches target u) eqn:Hn.
  - intros [= ->]. exists [], ts. unfold qualifies. rewrite Hn. auto.
  - destruct (hw_matches arch plat u) eqn:Hh.
    + intros [= ->]. exists [], ts. unfold qualifies. rewrite Hn, Hh. auto.
    + intros H. destruct (IH H) as (pre & post & -> & Hpre & Ht).
      exists (u :: pre), post. repeat split; [|exact Ht].
      constructor; [|exact Hpre]. unfold qualifies. now rewrite Hn, Hh.
Qed.

Lemma scan_none (target arch plat : option string) (ts : list Target) :
  scan target arch plat ts = None ->
  Forall (fun u => qualifies target arch plat u = false) ts.
Proof.
  induction ts as [|u ts IH]; cbn [scan]; [constructor|].
  destruct (name_matches target u) eqn:Hn; [discriminate|].
  destruct (hw_matches arch plat u) eqn:Hh; [discriminate|].
  intros H. constructor; [|now apply IH].
  unfold qualifies. now rewrite Hn, Hh.
Qed.

(** With no single target and no single binary, the automatic steps leave
    what the scan gives. *)
Lemma resolve_auto_scan (app : Application) (target arch plat : option string) :
  length (targets app) <> 1 ->
  length (binaries app) <> 1 ->
  resolve_auto app target arch plat =
  match scan target arch plat (targets app) with
  | Some t => TObj t
  | None => of_hint target
  end.
Proof.
  intros Ht Hb. unfold resolve_auto.
  destruct (targets app) as [|t1 [|t2 ts]]; cbn [length] in Ht; try congruence;
    destruct (binaries app) as [|b1 [|b2 bs]]; cbn [length] in Hb; congruence.
Qed.

Lemma resolve_auto_cases (app : Application) (target arch plat : option string) :
  (exists t, targets app = [t] /\ resolve_auto app target arch plat = TObj t)
  \/ (length (targets app) <> 1 /\
      exists b, binaries app = [b] /\ resolve_auto app target arch plat = TObj b)
  \/ (length (targets app) <> 1 /\ length (binaries app) <> 1 /\
      resolve_auto app target arch plat =
      match scan target arch plat (targets app) with
      | Some t => TObj t
      | None => of_hint target
      end).
Proof.
  unfold resolve_auto.
  destruct (targets app) as [|t1 [|t2 ts]] eqn:Et.
  - right. destruct (binaries app) as [|b1 [|b2 bs]] eqn:Eb.
    + right. cbn [length]. repeat split; congruence.
    + left. split; [cbn [length]; congruence|]. now exists b1.
    + right. cbn [length]. repeat split; congruence.
  - left. now exists t1.
  - right. destruct (binaries app) as [|b1 [|b2 bs]] eqn:Eb.
    + right. cbn [length]. repeat split; congruence.
    + left. split; [cbn [length]; congruence|]. now exists b1.
    + right. cbn [length]. repeat split; congruence.
Qed.

Lemma work_backwards_cases (answers : option string) (bs : list Target) (v : target_value) :
  work_backwards answers bs = Ok v ->
  v = TNone
  \/ exists b a p,
       answers = Some a /\ In b bs /\ binary b = Some p /\ basename p = a /\
       v = TObj b.
Proof.
  induction bs as [|t bs IH]; cbn [work_backwards].
  - intros [= <-]. now left.
  - destruct answers as [a|]; [|discriminate].
    destruct (binary t) as [p|] eqn:Ep; [|discriminate].
    destruct (String.eqb a (basename p)) eqn:Ea.
    + intros [= <-]. right. exists t, a, p.
      apply String.eqb_eq in Ea. repeat split; auto. now left.
    + intros H. destruct (IH H) as [->|(b & a' & q & Ha & Hin & Hb & Hq & ->)].
      * now left.
      * right. exists b, a', q. repeat split; auto. now right.
Qed.

End ResolverFacts.

(** ** Runs of [kraft_configure] *)

Section RunFacts.
Variable w : World.
Variable round : nat.

Lemma target_resolution_auto (app : Application) (target arch plat : option string)
    (v : target_value) :
  resolve_auto app target arch plat = v ->
  v <> TNone ->
  target_resolution w round app target arch plat = ([], Ok v).
Proof.
  intros H Hv. unfold target_resolution. rewrite H.
  destruct v; [congruence | reflexivity | reflexivity].
Qed.

(** An invocation that gets past the already-configured check hands the
    resolved value to [app.configure]. *)
Lemma configure_loaded_hands_over (app : Application) (wd : string)
    (target plat arch : option string) (force : bool) (options : list string)
    (tr : list event) (tv : target_value) :
  (is_configured app = true -> force = false ->
   confirm w round (overwrite_question wd) = true) ->
  target_resolution w round app target arch plat = (tr, Ok tv) ->
  In (Configure tv options (force || is_configured app))
     (fst (configure_loaded w round app wd target plat arch force options)).
Proof.
  intros Hc Hr. unfold configure_loaded, already_configured_check.
  destruct (is_configured app) eqn:Ei, force eqn:Ef; cbn [andb negb orb].
  - unfold bind at 1. cbn [ret]. rewrite Hr. cbn [bind call_ fst List.app].
    destruct (configure w round tv options true), (save_yaml w round);
      cbn [fst]; apply in_or_app; right; now left.
  - rewrite (Hc eq_refl eq_refl). cbn [bind emit ret]. rewrite Hr.
    cbn [bind call_ fst List.app].
    destruct (configure w round tv options true), (save_yaml w round);
      cbn [fst]; right; apply in_or_app; right; now left.
  - unfold bind at 1. cbn [ret]. rewrite Hr. cbn [bind call_ fst List.app].
    destruct (configure w round tv options true), (save_yaml w round);
      cbn [fst]; apply in_or_app; right; now left.
  - unfold bind at 1. cbn [ret]. rewrite Hr. cbn [bind call_ fst List.app].
    destruct (configure w round tv options false), (save_yaml w round);
      cbn [fst]; apply in_or_app; right; now left.
Qed.

Lemma kraft_configure_loaded (wd : string) (app : Application)
    (target plat arch : option string) (force : bool)
    (options uv : list string) :
  path_exists w wd = true ->
  from_workdir w round wd force uv = Ok app ->
  kraft_configure w round (Some wd) target plat arch force false options uv
  = (Log Debug (Text ("Configuring " ++ wd ++ "...")%string)
       :: FromWorkdir wd force uv
       :: fst (configure_loaded w round app wd target plat arch force options),
     snd (configure_loaded w round app wd target plat arch force options)).
Proof.
  intros Hp Hl. unfold kraft_configure. rewrite Hp. cbn [negb].
  cbn [bind emit call]. rewrite Hl.
  destruct (configure_loaded w round app wd target plat arch force options).
  reflexivity.
Qed.

End RunFacts.

(** C5.  With exactly one declared target, resolution selects it whatever
    the hints are, and no prompt is made. *)
Theorem C5_single_target_selected_unconditionally :
  forall (w : World) (round : nat) (app : Application) (t : Target)
         (target arch plat : option string),
    targets app = [t] ->
    resolve_auto app target arch plat = TObj t
    /\ target_resolution w round app target arch plat = ([], Ok (TObj t)).
Proof.
  intros w round app t target arch plat Ht.
  assert (H : resolve_auto app target arch plat = TObj t).
  { unfold resolve_auto. now rewrite Ht. }
  split; [exact H|].
  apply target_resolution_auto; [exact H | discriminate].
Qed.

Lemma C5_single_target_selected_unconditionally_witness :
  resolve_auto app_one (Some "xen") (Some "arm64") (Some "xen") = TObj t_kvm
  /\ target_resolution (world false app_one 0) 0 app_one
       (Some "xen") (Some "arm64") (Some "xen") = ([], Ok (TObj t_kvm)).
Proof.
  apply (C5_single_target_selected_unconditionally
           (world false app_one 0) 0 app_one t_kvm).
  reflexivity.
Defined.

(** C4.  With two or more targets and exactly one entry in [app.binaries],
    resolution selects that entry, the target object that carries the
    binary, and it is the value [app.configure] receives. *)
Theorem C4_single_binary_selected :
  forall (w : World) (round : nat) (wd : string) (app : Application)
         (b : Target) (target plat arch : option string) (force : bool)
         (options uv : list string),
    path_exists w wd = true ->
    from_workdir w round wd force uv = Ok app ->
    (is_configured app = true -> force = false ->
     confirm w round (overwrite_question wd) = true) ->
    2 <= length (targets app) ->
    binaries app = [b] ->
    resolve_auto app target arch plat = TObj b
    /\ In (Configure (TObj b) options (force || is_configured app))
          (fst (kraft_configure w round (Some wd) target plat arch force false
                  options uv)).
Proof.
  intros w round wd app b target plat arch force options uv Hp Hl Hc Hn Hb.
  assert (H : resolve_auto app target arch plat = TObj b).
  { unfold resolve_auto. rewrite Hb.
    destruct (targets app) as [|t1 [|t2 ts]]; cbn [length] in Hn;
      [lia | lia | reflexivity]. }
  split; [exact H|].
  rewrite (kraft_configure_loaded w round wd app) by assumption.
  cbn [fst]. right. right.
  apply (configure_loaded_hands_over w round app wd target plat arch force
           options []); [exact Hc|].
  apply target_resolution_auto; [exact H | discriminate].
Qed.

Lemma C4_single_binary_selected_witness :
  resolve_auto app_two_one_binary None None None = TObj t_xen
  /\ In (Configure (TObj t_xen) ["CONFIG_a=y"] (false || is_configured app_two_one_binary))
        (fst (kraft_configure (world true app_two_one_binary 0) 0 (Some "/app")
                None None None false false ["CONFIG_a=y"] [])).
Proof.
  apply (C4_single_binary_selected (world true app_two_one_binary 0) 0 "/app"
           app_two_one_binary t_xen None None None false ["CONFIG_a=y"] []).
  - reflexivity.
  - reflexivity.
  - intros _ _. reflexivity.
  - simpl. lia.
  - reflexivity.
Defined.

(** C6, as stated, fails: the name of the second target is supplied, but the
    architecture and platform hints match the first target, where the scan
    stops. *)
Lemma C6_second_name_first_hardware_counterexample :
  targets app_two = [t_kvm; t_xen]
  /\ length (binaries app_two) = 2
  /\ name t_xen = Some "xen"
  /\ name t_kvm <> Some "xen"
  /\ resolve_auto app_two (Some "xen") (Some "x86_64") (Some "kvm") = TObj t_kvm
  /\ resolve_auto app_two (Some "xen") (Some "x86_64") (Some "kvm") <> TObj t_xen.
Proof.
  repeat split; try reflexivity; vm_compute; discriminate.
Qed.

(** C6 (amended).  With two or more targets and a number of binaries other
    than one, the scan visits the targets in declared order and stops at the
    first one whose name equals the supplied name or whose architecture and
    platform both equal the supplied hints.  In particular, when the supplied
    name is that of the second target and not of the first, and the
    architecture and platform hints do not both match the first target,
    resolution returns the second target. *)
Theorem C6_first_match_in_declared_order :
  forall (app : Application) (target arch plat : option string),
    2 <= length (targets app) ->
    length (binaries app) <> 1 ->
    (forall pre t post,
        targets app = pre ++ t :: post ->
        Forall (fun u => qualifies target arch plat u = false) pre ->
        qualifies target arch plat t = true ->
        resolve_auto app target arch plat = TObj t)
    /\ (forall t1 t2 rest nm,
           targets app = t1 :: t2 :: rest ->
           target = Some nm ->
           name t2 = Some nm ->
           name t1 <> Some nm ->
           hw_matches arch plat t1 = false ->
           resolve_auto app target arch plat = TObj t2).
Proof.
  intros app target arch plat Hn Hb.
  assert (Hn1 : length (targets app) <> 1) by lia.
  assert (first :
    forall pre t post,
      targets app = pre ++ t :: post ->
      Forall (fun u => qualifies target arch plat u = false) pre ->
      qualifies target arch plat t = true ->
      resolve_auto app target arch plat = TObj t).
  { intros pre t post Ht Hpre Hq.
    rewrite (resolve_auto_scan app target arch plat Hn1 Hb).
    now rewrite (scan_first target arch plat (targets app) pre t post Ht Hpre Hq). }
  split; [exact first|].
  intros t1 t2 rest nm Ht -> H2 H1 Hhw.
  apply (first [t1] t2 rest Ht).
  - constructor; [|constructor].
    unfold qualifies. rewrite Hhw. unfold name_matches.
    destruct (name t1) as [n1|]; [|reflexivity].
    destruct (String.eqb nm n1) eqn:E; [|reflexivity].
    apply String.eqb_eq in E. congruence.
  - unfold qualifies, name_matches. rewrite H2, String.eqb_refl. reflexivity.
Qed.

Lemma C6_first_match_in_declared_order_witness :
  (forall pre t post,
      targets app_two = pre ++ t :: post ->
      Forall (fun u => qualifies (Some "xen") None None u = false) pre ->
      qualifies (Some "xen") None None t = true ->
      resolve_auto app_two (Some "xen") None None = TObj t)
  /\ (forall t1 t2 rest nm,
         targets app_two = t1 :: t2 :: rest ->
         Some "xen" = Some nm ->
         name t2 = Some nm ->
         name t1 <> Some nm ->
         hw_matches None None t1 = false ->
         resolve_auto app_two (Some "xen") None None = TObj t2).
Proof.
  apply (C6_first_match_in_declared_order app_two (Some "xen") None None).
  - simpl. lia.
  - simpl. lia.
Defined.

Example second_target_by_name :
  resolve_auto app_two (Some "xen") None None = TObj t_xen.
Proof. reflexivity. Qed.

(** ** The interactive fallback *)

Section FallbackFacts.
Variable w : World.
Variable round : nat.

Lemma target_resolution_cases (app : Application)
    (target arch plat : option string) (tr : list event) (tv : target_value) :
  target_resolution w round app target arch plat = (tr, Ok tv) ->
  (resolve_auto app target arch plat = tv /\ tv <> TNone /\ tr = [])
  \/ (resolve_auto app target arch plat = TNone /\
      exists choices answers,
        labels (binaries app) = Ok choices /\
        prompt w round choices = Ok answers /\
        work_backwards answers (binaries app) = Ok tv /\
        tr = [Prompt choices]).
Proof.
  unfold target_resolution.
  destruct (resolve_auto app target arch plat) as [|s|t] eqn:E.
  - intros H. right. split; [reflexivity|].
    unfold interactive in H.
    destruct (labels (binaries app)) as [choices|e] eqn:El; [|discriminate].
    cbn [bind call lift] in H.
    destruct (prompt w round choices) as [answers|e] eqn:Ep; [|discriminate].
    destruct (work_backwards answers (binaries app)) as [v|e] eqn:Ew;
      [|discriminate].
    injection H as <- <-. now exists choices, answers.
  - intros [= <- <-]. left. repeat split. discriminate.
  - intros [= <- <-]. left. repeat split. discriminate.
Qed.

(** Target resolution calls nothing but the prompt. *)
Lemma target_resolution_trace (app : Application)
    (target arch plat : option string) :
  fst (target_resolution w round app target arch plat) = []
  \/ exists choices,
       labels (binaries app) = Ok choices /\
       resolve_auto app target arch plat = TNone /\
       fst (target_resolution w round app target arch plat) = [Prompt choices].
Proof.
  unfold target_resolution.
  destruct (resolve_auto app target arch plat) as [|s|t]; [|now left|now left].
  unfold interactive.
  destruct (labels (binaries app)) as [choices|e] eqn:El; [|now left].
  right. exists choices. repeat split.
  cbn [bind call lift].
  destruct (prompt w round choices) as [answers|e]; [|reflexivity].
  destruct (work_backwards answers (binaries app)); reflexivity.
Qed.

(** The trace of what follows the load: the confirmation if one is asked,
    the calls of target resolution, then [app.configure] and
    [app.save_yaml] if they are reached. *)
Lemma configure_loaded_trace (app : Application) (wd : string)
    (target plat arch : option string) (force : bool) (options : list string) :
  (is_configured app = true -> force = false ->
   confirm w round (overwrite_question wd) = true) ->
  exists pre post,
    fst (configure_loaded w round app wd target plat arch force options)
    = pre ++ fst (target_resolution w round app target arch plat) ++ post.
Proof.
  intros Hc. unfold configure_loaded, already_configured_check.
  destruct (target_resolution w round app target arch plat) as [tr [tv|e]].
  - destruct (is_configured app && negb force) eqn:E.
    + apply andb_true_iff in E. destruct E as [Ei Ef].
      apply negb_true_iff in Ef. rewrite (Hc Ei Ef).
      exists [Confirm (overwrite_question wd)].
      cbn [bind emit ret call_ fst List.app].
      destruct (configure w round tv options true), (save_yaml w round);
        cbn [fst]; eexists; reflexivity.
    + exists []. cbn [bind ret call_ fst List.app].
      destruct (configure w round tv options force), (save_yaml w round);
        cbn [fst]; eexists; reflexivity.
  - destruct (is_configured app && negb force) eqn:E.
    + apply andb_true_iff in E. destruct E as [Ei Ef].
      apply negb_true_iff in Ef. rewrite (Hc Ei Ef).
      exists [Confirm (overwrite_question wd)], [].
      cbn [bind emit ret fst List.app]. now rewrite app_nil_r.
    + exists [], []. cbn [bind ret fst List.app]. now rewrite app_nil_r.
Qed.

(** A [Configure] event of what follows the load carries the value target
    resolution returned and the normalized options. *)
Lemma configure_loaded_configure_event (app : Application) (wd : string)
    (target plat arch : option string) (force : bool) (options : list string)
    (tv : target_value) (o : list string) (f : bool) :
  In (Configure tv o f)
     (fst (configure_loaded w round app wd target plat arch force options)) ->
  o = options /\
  exists tr, target_resolution w round app target arch plat = (tr, Ok tv).
Proof.
  unfold configure_loaded, already_configured_check.
  destruct (target_resolution_trace app target arch plat) as [Htr|(ch & _ & _ & Htr)];
    destruct (target_resolution w round app target arch plat) as [tr [v|e]];
    cbn [fst] in Htr; subst tr;
    destruct (is_configured app && negb force);
    try destruct (confirm w round (overwrite_question wd));
    cbn [bind emit ret raise call_ fst List.app];
    try destruct (configure w round v options true);
    try destruct (configure w round v options force);
    try destruct (save_yaml w round);
    cbn [fst List.app In];
    intros H; repeat (destruct H as [H|H]; try discriminate H);
    try contradiction;
    injection H as <- <- <-; split; try reflexivity; eexists; reflexivity.
Qed.

End FallbackFacts.

(** C8 (the code departs from the claim).  When the automatic steps resolve
    nothing, [inquirer.prompt] is called whether or not the process has a
    terminal: unlike the menu-editor branch, the fallback does not consult
    [sys.stdout.isatty()]. *)
Theorem C8_prompt_is_made_without_a_terminal :
  forall (w : World) (round : nat) (wd : string) (app : Application)
         (target plat arch : option string) (force : bool)
         (options uv choices : list string),
    isatty w = false ->
    path_exists w wd = true ->
    from_workdir w round wd force uv = Ok app ->
    (is_configured app = true -> force = false ->
     confirm w round (overwrite_question wd) = true) ->
    resolve_auto app target arch plat = TNone ->
    labels (binaries app) = Ok choices ->
    In (Prompt choices)
       (fst (kraft_configure w round (Some wd) target plat arch force false
               options uv)).
Proof.
  intros w round wd app target plat arch force options uv choices
         _ Hp Hl Hc Hr Hch.
  rewrite (kraft_configure_loaded w round wd app) by assumption.
  cbn [fst]. right. right.
  destruct (configure_loaded_trace w round app wd target plat arch force
              options Hc) as (pre & post & ->).
  apply in_or_app. right. apply in_or_app. left.
  destruct (target_resolution_trace w round app target arch plat)
    as [He|(ch & Hch' & _ & ->)].
  - exfalso. unfold target_resolution, interactive in He.
    rewrite Hr, Hch in He. cbn [bind call lift] in He.
    destruct (prompt w round choices) as [answers|e]; [|discriminate He].
    destruct (work_backwards answers (binaries app)); discriminate He.
  - rewrite Hch in Hch'. injection Hch' as <-. now left.
Qed.

Lemma C8_prompt_is_made_without_a_terminal_witness :
  In (Prompt ["app_kvm-x86_64"; "app_xen-arm64"])
     (fst (kraft_configure (world false app_unnamed 0) 0 (Some "/app")
             None None None false false [] [])).
Proof.
  apply (C8_prompt_is_made_without_a_terminal (world false app_unnamed 0) 0
           "/app" app_unnamed None None None false [] []).
  - reflexivity.
  - reflexivity.
  - reflexivity.
  - intros _ _. reflexivity.
  - reflexivity.
  - reflexivity.
Defined.

Example run_without_a_terminal :
  kraft_configure (world false app_unnamed 0) 0 (Some "/app")
    None None None false false [] []
  = ([Log Debug (Text "Configuring /app..."); FromWorkdir "/app" false [];
      Prompt ["app_kvm-x86_64"; "app_xen-arm64"];
      Configure (TObj u_kvm) [] false; SaveYaml],
     Ok tt).
Proof. reflexivity. Qed.

(** C3, as stated, fails: a supplied name that matches no declared target is
    handed to [app.configure] as it is, and with no binaries [app.configure]
    is called with no target; neither run fails. *)
Lemma C3_unmatched_name_reaches_configure_counterexample :
  kraft_configure (world true app_two 0) 0 (Some "/app")
    (Some "zzz") None None false false [] []
  = ([Log Debug (Text "Configuring /app..."); FromWorkdir "/app" false [];
      Configure (TName "zzz") [] false; SaveYaml],
     Ok tt)
  /\ kraft_configure (world true app_no_binaries 0) 0 (Some "/app")
       None None None false false [] []
     = ([Log Debug (Text "Configuring /app..."); FromWorkdir "/app" false [];
         Prompt []; Configure TNone [] false; SaveYaml],
        Ok tt).
Proof.
  split; reflexivity.
Qed.

(** The way back from the answer: the first entry whose basename is the
    answer, when there is one. *)
Lemma work_backwards_first (answers : option string) (bs : list Target)
    (tv : target_value) :
  work_backwards answers bs = Ok tv ->
  (bs = [] /\ tv = TNone)
  \/ exists a,
       answers = Some a /\
       ((exists pre b post p,
            bs = pre ++ b :: post /\
            Forall (fun u => forall q, binary u = Some q -> basename q <> a) pre /\
            binary b = Some p /\ basename p = a /\ tv = TObj b)
        \/ (bs <> [] /\
            Forall (fun u => forall q, binary u = Some q -> basename q <> a) bs)).
Proof.
  induction bs as [|t bs IH]; cbn [work_backwards].
  - intros [= <-]. now left.
  - destruct answers as [a|]; [|discriminate].
    destruct (binary t) as [p|] eqn:Ep; [|discriminate].
    destruct (String.eqb a (basename p)) eqn:Ea.
    + intros [= <-]. right. exists a. split; [reflexivity|]. left.
      apply String.eqb_eq in Ea. exists [], t, bs, p.
      repeat split; auto.
    + intros H.
      assert (Ht : forall q, binary t = Some q -> basename q <> a).
      { intros q Hq E. rewrite Ep in Hq. injection Hq as <-.
        rewrite E, String.eqb_refl in Ea. discriminate. }
      right. exists a. split; [reflexivity|].
      destruct (IH H) as [[-> _]|(a' & [= <-] & [Hfound|[_ Hnone]])].
      * right. split; [discriminate|]. constructor; [exact Ht|constructor].
      * destruct Hfound as (pre & b & post & q & -> & Hpre & Hb & Hq & ->).
        left. exists (t :: pre), b, post, q.
        repeat split; auto.
      * right. split; [discriminate|]. constructor; assumption.
Qed.

(** C3 (amended).  Whenever [app.configure] is called, the application was
    loaded and the value handed over is, by the steps in order: the only
    declared target; else the only entry of [app.binaries]; else the first
    declared target, in declared order, that has the supplied name or both
    supplied hardware hints; else, when no target name was supplied, the
    first entry of [app.binaries] whose path basename is the answer of the
    prompt.  That value is one of the declared targets whenever the entries
    of [app.binaries] are.  Two values are no target: a supplied name that
    matches no declared target is handed over as it is, without a prompt,
    and with no binaries at all the call is made with no target.  There is
    no failure for an unresolved target.  Nothing is said of an answer that
    is the basename of no entry. *)
Theorem C3_value_handed_to_configure :
  forall (w : World) (round : nat) (workdir target plat arch : option string)
         (force menu : bool) (options uv : list string)
         (tv : target_value) (o : list string) (f : bool),
    In (Configure tv o f)
       (fst (kraft_configure w round workdir target plat arch force menu
               options uv)) ->
    exists wd app,
      workdir = Some wd /\
      from_workdir w round wd force uv = Ok app /\
      ((forall b, In b (binaries app) -> In b (targets app)) ->
       forall t, tv = TObj t -> In t (targets app)) /\
      ((exists t, targets app = [t] /\ tv = TObj t)
       \/ (length (targets app) <> 1 /\
           exists b, binaries app = [b] /\ tv = TObj b)
       \/ (length (targets app) <> 1 /\ length (binaries app) <> 1 /\
           exists pre t post,
             targets app = pre ++ t :: post /\
             Forall (fun u => qualifies target arch plat u = false) pre /\
             qualifies target arch plat t = true /\ tv = TObj t)
       \/ (length (targets app) <> 1 /\ length (binaries app) <> 1 /\
           Forall (fun u => qualifies target arch plat u = false) (targets app) /\
           exists s, target = Some s /\ tv = TName s)
       \/ (length (targets app) <> 1 /\ length (binaries app) <> 1 /\
           Forall (fun u => qualifies target arch plat u = false) (targets app) /\
           target = None /\
           exists choices answers,
             labels (binaries app) = Ok choices /\
             prompt w round choices = Ok answers /\
             ((binaries app = [] /\ tv = TNone)
              \/ exists a,
                   answers = Some a /\
                   ((exists pre b post p,
                        binaries app = pre ++ b :: post /\
                        Forall (fun u => forall q, binary u = Some q ->
                                                   basename q <> a) pre /\
                        binary b = Some p /\ basename p = a /\ tv = TObj b)
                    \/ (binaries app <> [] /\
                        Forall (fun u => forall q, binary u = Some q ->
                                                   basename q <> a)
                               (binaries app)))))).
Proof.
  intros w round workdir target plat arch force menu options uv tv o f H.
  unfold kraft_configure in H.
  destruct workdir as [wd|]; [|contradiction].
  destruct (path_exists w wd); cbn [negb] in H; [|contradiction].
  cbn [bind emit call] in H.
  destruct (from_workdir w round wd force uv) as [app|e] eqn:Hl.
  2:{ cbn [In] in H. destruct H as [H|[H|H]]; try discriminate H; contradiction. }
  destruct menu.
  { destruct (isatty w); cbn [call_ raise fst List.app In] in H.
    - destruct (open_menuconfig w round); cbn [In] in H;
        repeat (destruct H as [H|H]; try discriminate H); contradiction.
    - repeat (destruct H as [H|H]; try discriminate H); contradiction. }
  destruct (configure_loaded w round app wd target plat arch force options)
    as [tr r] eqn:Ecl.
  cbn [List.app In] in H.
  destruct H as [H|[H|H]]; try discriminate H.
  assert (H' : In (Configure tv o f)
                 (fst (configure_loaded w round app wd target plat arch force options)))
    by (rewrite Ecl; exact H).
  apply configure_loaded_configure_event in H'.
  destruct H' as [_ [tr' Hres]].
  exists wd, app. split; [reflexivity|]. split; [exact Hl|].
  apply target_resolution_cases in Hres.
  destruct (resolve_auto_cases app target arch plat)
    as [(t & Ht & Ha)|[(Hn & b & Hb & Ha)|(Hn & Hm & Ha)]].
  - assert (Htv : tv = TObj t)
      by (destruct Hres as [(Hr & _)|(Hr & _)]; congruence).
    split.
    + intros _ t' Ht'. rewrite Htv in Ht'. injection Ht' as <-.
      rewrite Ht. now left.
    + left. now exists t.
  - assert (Htv : tv = TObj b)
      by (destruct Hres as [(Hr & _)|(Hr & _)]; congruence).
    split.
    + intros Hsub t' Ht'. rewrite Htv in Ht'. injection Ht' as <-.
      apply Hsub. rewrite Hb. now left.
    + right. left. split; [exact Hn|]. now exists b.
  - destruct (scan target arch plat (targets app)) as [t|] eqn:Es.
    + assert (Htv : tv = TObj t)
        by (destruct Hres as [(Hr & _)|(Hr & _)]; congruence).
      destruct (scan_some _ _ _ _ _ Es) as (pre & post & Hts & Hpre & Hq).
      split.
      * intros _ t' Ht'. rewrite Htv in Ht'. injection Ht' as <-.
        rewrite Hts. apply in_or_app. right. now left.
      * right. right. left. repeat split; try assumption.
        now exists pre, t, post.
    + pose proof (scan_none _ _ _ _ Es) as Hnone.
      destruct target as [s|]; cbn [of_hint] in Ha.
      * assert (Htv : tv = TName s)
          by (destruct Hres as [(Hr & _)|(Hr & _)]; congruence).
        split; [intros _ t' Ht'; congruence|].
        right. right. right. left. repeat split; try assumption.
        now exists s.
      * destruct Hres as [(Hr & Hne & _)|(_ & ch & ans & Hch & Hpr & Hwb & _)];
          [congruence|].
        split.
        -- intros Hsub t' Ht'.
           destruct (work_backwards_cases _ _ _ Hwb)
             as [->|(b & a & q & _ & Hin & _ & _ & ->)]; [discriminate Ht'|].
           injection Ht' as <-. now apply Hsub.
        -- right. right. right. right. repeat split; try assumption.
           exists ch, ans. split; [exact Hch|]. split; [exact Hpr|].
           now apply work_backwards_first.
Qed.

Lemma C3_value_handed_to_configure_witness :
  exists wd app,
    Some "/app" = Some wd /\
    from_workdir (world false app_unnamed 0) 0 wd false [] = Ok app /\
    ((forall b, In b (binaries app) -> In b (targets app)) ->
     forall t, TObj u_kvm = TObj t -> In t (targets app)) /\
    ((exists t, targets app = [t] /\ TObj u_kvm = TObj t)
     \/ (length (targets app) <> 1 /\
         exists b, binaries app = [b] /\ TObj u_kvm = TObj b)
     \/ (length (targets app) <> 1 /\ length (binaries app) <> 1 /\
         exists pre t post,
           targets app = pre ++ t :: post /\
           Forall (fun u => qualifies None None None u = false) pre /\
           qualifies None None None t = true /\ TObj u_kvm = TObj t)
     \/ (length (targets app) <> 1 /\ length (binaries app) <> 1 /\
         Forall (fun u => qualifies None None None u = false) (targets app) /\
         exists s, None = Some s /\ TObj u_kvm = TName s)
     \/ (length (targets app) <> 1 /\ length (binaries app) <> 1 /\
         Forall (fun u => qualifies None None None u = false) (targets app) /\
         (None : option string) = None /\
         exists choices answers,
           labels (binaries app) = Ok choices /\
           prompt (world false app_unnamed 0) 0 choices = Ok answers /\
           ((binaries app = [] /\ TObj u_kvm = TNone)
            \/ exists a,
                 answers = Some a /\
                 ((exists pre b post p,
                      binaries app = pre ++ b :: post /\
                      Forall (fun u => forall q, binary u = Some q ->
                                                 basename q <> a) pre /\
                      binary b = Some p /\ basename p = a /\
                      TObj u_kvm = TObj b)
                  \/ (binaries app <> [] /\
                      Forall (fun u => forall q, binary u = Some q ->
                                                 basename q <> a)
                             (binaries app)))))).
Proof.
  apply (C3_value_handed_to_configure (world false app_unnamed 0) 0
           (Some "/app") None None None false false [] [] (TObj u_kvm) []
           false).
  simpl. right. right. right. left. reflexivity.
Defined.

(** ** Orchestration *)

(** C10.  A failure of option normalization ends [cmd_configure] with an
    exception before [kraft_configure] is entered: the calls made are the
    preflight and the log of the error, none of them loads, edits, configures
    or saves the application; for a conflict or a missing value the exception
    is that of [sys.exit(1)]. *)
Theorem C10_normalization_failure_precedes_application_load :
  forall (ns : string) (fuel : nat) (w : World) (round : nat)
         (cp : option Params) (p : Params)
         (e : norm_error),
    normalize ns (yes p) (no p) (opts p) = Failed e ->
    exists tr x,
      cmd_configure ns (S fuel) w round cp p = Some (tr, Raise x)
      /\ Forall (fun ev => touches_application ev = false) tr
      /\ (preflight w round = None -> e <> FormatError -> x = SystemExit 1).
Proof.
  intros ns fuel w round cp p e H. cbn [cmd_configure].
  destruct (preflight w round) as [x|].
  - exists [Preflight], x. repeat split.
    + repeat constructor.
    + discriminate.
  - rewrite H. destruct e as [n|o|].
    + eexists _, _. repeat split. repeat constructor.
    + eexists _, _. repeat split. repeat constructor.
    + eexists _, _. repeat split; [repeat constructor | congruence].
Qed.

Lemma C10_normalization_failure_precedes_application_load_witness :
  exists tr x,
    invocation "CONFIG_" 1 (world true app_two 0)
      (params None None None false [] [] ["c"]) = Some (tr, Raise x)
    /\ Forall (fun ev => touches_application ev = false) tr
    /\ (preflight (world true app_two 0) 0 = None ->
        MissingOptionValue "CONFIG_c" <> FormatError -> x = SystemExit 1).
Proof.
  apply (C10_normalization_failure_precedes_application_load "CONFIG_" 0
           (world true app_two 0) 0 (Some (params None None None false [] [] ["c"]))
           (params None None None false [] [] ["c"])
           (MissingOptionValue "CONFIG_c")).
  reflexivity.
Defined.

(** C9, as stated, fails: the options are normalized before
    [kraft_configure] looks at the menu-editor flag, so a malformed setting
    ends the invocation with its own error and the terminal is never
    checked. *)
Lemma C9_normalization_comes_first_counterexample :
  isatty (world false app_two 0) = false
  /\ show_menuconfig (params None None None true [] [] ["c"]) = true
  /\ invocation "CONFIG_" 1 (world false app_two 0)
       (params None None None true [] [] ["c"])
     = Some ([Preflight;
              Log Critical (Text "Missing value for --set option: CONFIG_c")],
             Raise (SystemExit 1)).
Proof.
  repeat split.
Qed.

(** C9 (amended).  When the menu editor is asked for without a terminal,
    and the preflight passes, the options normalize, the working directory
    exists and the application loads, [kraft_configure] raises the
    [KraftError] of the non-TTY menu editor and [cmd_configure] exits with
    code 1.  This happens after option normalization and before target
    resolution: no prompt, [app.configure] or [app.save_yaml] call is
    made. *)
Theorem C9_menu_editor_without_terminal :
  forall (ns : string) (fuel : nat) (w : World) (round : nat)
         (cp : option Params) (p : Params)
         (options : list string) (app : Application),
    show_menuconfig p = true ->
    isatty w = false ->
    preflight w round = None ->
    normalize ns (yes p) (no p) (opts p) = Options options ->
    path_exists w (effective_workdir w p) = true ->
    from_workdir w round (effective_workdir w p) (force_configure p)
      (use_versions p) = Ok app ->
    snd (configure_attempt w round p options)
    = Raise (KraftError "Cannot open menuconfig in non-TTY environment")
    /\ exists tr,
         cmd_configure ns (S fuel) w round cp p = Some (tr, Raise (SystemExit 1))
         /\ In (Log Critical
                  (OfExn (KraftError "Cannot open menuconfig in non-TTY environment")))
               tr
         /\ Forall (fun ev => resolves_target ev = false) tr.
Proof.
  intros ns fuel w round cp p options app Hm Ht Hp Hn Hx Hl.
  assert (Ha : configure_attempt w round p options
               = ([Log Debug (Text ("Configuring " ++ effective_workdir w p ++ "...")%string);
                   FromWorkdir (effective_workdir w p) (force_configure p) (use_versions p)],
                  Raise (KraftError "Cannot open menuconfig in non-TTY environment"))).
  { unfold configure_attempt, kraft_configure.
    rewrite Hx, Hm. cbn [negb bind emit call]. rewrite Hl, Ht. reflexivity. }
  split; [now rewrite Ha|].
  cbn [cmd_configure]. rewrite Hp, Hn, Ha.
  eexists. split; [reflexivity|]. split.
  - cbn [List.app In]. auto.
  - unfold verbose_traceback. destruct (verbose w); repeat constructor.
Qed.

Lemma C9_menu_editor_without_terminal_witness :
  snd (configure_attempt (world false app_two 0) 0
         (params None None None true [] [] ["c=1"]) ["CONFIG_c=1"])
  = Raise (KraftError "Cannot open menuconfig in non-TTY environment")
  /\ exists tr,
       invocation "CONFIG_" 1 (world false app_two 0)
         (params None None None true [] [] ["c=1"])
       = Some (tr, Raise (SystemExit 1))
       /\ In (Log Critical
                (OfExn (KraftError "Cannot open menuconfig in non-TTY environment")))
             tr
       /\ Forall (fun ev => resolves_target ev = false) tr.
Proof.
  apply (C9_menu_editor_without_terminal "CONFIG_" 0 (world false app_two 0) 0
           (Some (params None None None true [] [] ["c=1"]))
           (params None None None true [] [] ["c=1"]) ["CONFIG_c=1"] app_two);
    reflexivity.
Defined.

(** ** The fetch-and-retry recovery *)

Section RetryFacts.

Lemma fetches_app (a b : list event) : fetches (a ++ b) = fetches a + fetches b.
Proof.
  unfold fetches. now rewrite filter_app, length_app.
Qed.

Lemma reentries_app (a b : list event) :
  reentries (a ++ b) = reentries a + reentries b.
Proof.
  unfold reentries. now rewrite filter_app, length_app.
Qed.

Lemma quiet_bind {A B} (m : M A) (f : A -> M B) :
  quiet (fst m) -> (forall a, quiet (fst (f a))) -> quiet (fst (bind m f)).
Proof.
  intros Hm Hf. destruct m as [tr [a|e]]; cbn [bind fst] in *; [|exact Hm].
  specialize (Hf a). destruct (f a) as [tr' r]. cbn [fst] in *.
  apply Forall_app. now split.
Qed.

Ltac quiet_step :=
  first
    [ apply quiet_bind; [|intro]
    | solve [cbn [fst emit ret raise call call_ lift]; repeat constructor]
    | match goal with
      | |- quiet (fst (match ?x with _ => _ end)) => destruct x
      end ].

(** [kraft_configure] neither fetches nor re-enters. *)
Lemma kraft_configure_quiet (w : World) (round : nat)
    (workdir target plat arch : option string) (force menu : bool)
    (options uv : list string) :
  quiet (fst (kraft_configure w round workdir target plat arch force menu
                options uv)).
Proof.
  unfold kraft_configure, configure_loaded, already_configured_check,
    target_resolution, interactive.
  repeat quiet_step.
Qed.

Lemma quiet_counts (tr : list event) :
  quiet tr -> fetches tr = 0 /\ reentries tr = 0.
Proof.
  unfold quiet, fetches, reentries.
  induction 1 as [|ev tr [Hp Hf] _ [IHp IHf]]; [now split|].
  cbn [filter]. rewrite Hp, Hf. now split.
Qed.

Lemma configure_attempt_counts (w : World) (round : nat) (p : Params)
    (options : list string) :
  fetches (fst (configure_attempt w round p options)) = 0
  /\ reentries (fst (configure_attempt w round p options)) = 0.
Proof.
  apply quiet_counts, kraft_configure_quiet.
Qed.

Lemma verbose_traceback_counts (w : World) :
  fetches (verbose_traceback w) = 0 /\ reentries (verbose_traceback w) = 0.
Proof.
  unfold verbose_traceback. destruct (verbose w); now split.
Qed.

(** With a click that keeps the forwarded parameters, every re-entry runs
    on the parameters of the invocation, forced. *)
Lemma entry_at_forced (w : World) (p : Params) (i : nat) :
  forward_keeps_params w = true ->
  entry_at w (Some (with_force p true)) (with_force p true) i
  = (Some (with_force p true), with_force p true).
Proof.
  intros Hk. induction i as [|i IH]; [reflexivity|].
  cbn [entry_at]. unfold subcontext, forwarded. rewrite Hk.
  change (with_force (with_force p true) true) with (with_force p true).
  exact IH.
Qed.

Lemma params_at_kept (w : World) (p : Params) (i : nat) :
  forward_keeps_params w = true ->
  params_at w p (S i) = with_force p true.
Proof.
  intros Hk. unfold params_at. cbn [entry_at].
  unfold subcontext, forwarded. rewrite Hk.
  now rewrite (entry_at_forced w p i Hk).
Qed.

(** With a click that leaves the new context empty, the first re-entry runs
    on the parameters of the invocation, the later ones on the defaults;
    all of them forced. *)
Lemma params_at_lost (w : World) (p : Params) (i : nat) :
  forward_keeps_params w = false ->
  params_at w p (S i)
  = match i with
    | 0 => with_force p true
    | S _ => with_force default_params true
    end.
Proof.
  intros Hk. unfold params_at. cbn [entry_at].
  unfold subcontext. rewrite Hk.
  destruct i as [|i]; [reflexivity|].
  cbn [entry_at]. unfold subcontext. rewrite Hk.
  induction i as [|i IH]; [reflexivity|].
  cbn [entry_at]. unfold subcontext. rewrite Hk. exact IH.
Qed.

(** Starting from any entry: [k] entries that fail with [MissingComponent]
    and fetch, then one that does not fail that way, make [k] fetches and
    [k] re-entries. *)
Lemma retry_chain (ns : string) (w : World) :
  forall (k r : nat) (cp : option Params) (p : Params),
    (forall i, i <= k -> preflight w (r + i) = None) ->
    (forall i, i < k ->
               refetches_at ns w (r + i) (snd (entry_at w cp p i)) = true) ->
    missing_at ns w (r + k) (snd (entry_at w cp p k)) = false ->
    exists tr res,
      cmd_configure ns (S k) w r cp p = Some (tr, res)
      /\ fetches tr = k /\ reentries tr = k.
Proof.
  induction k as [|k IH]; intros r cp p Hpre Hre Hlast.
  - specialize (Hpre 0 (Nat.le_refl 0)).
    rewrite Nat.add_0_r in Hpre, Hlast. cbn [entry_at snd] in Hlast.
    cbn [cmd_configure]. rewrite Hpre.
    unfold missing_at, missing in Hlast.
    destruct (normalize ns (yes p) (no p) (opts p)) as [options|[n|o|]].
    2-4: eexists _, _; split; [reflexivity | split; reflexivity].
    destruct (configure_attempt_counts w r p options) as [Hf Hr].
    destruct (verbose_traceback_counts w) as [Vf Vr].
    destruct (configure_attempt w r p options) as [tr [[]|e]];
      cbn [fst snd] in *.
    + eexists _, _. split; [reflexivity|].
      change (Preflight :: tr) with ([Preflight] ++ tr).
      rewrite fetches_app, reentries_app, Hf, Hr. now split.
    + destruct e; try discriminate Hlast;
        eexists _, _; (split; [reflexivity|]);
        change (Preflight :: ?l) with ([Preflight] ++ l);
        rewrite ?fetches_app, ?reentries_app, Hf, Hr, ?Vf, ?Vr; now split.
  - pose proof (Hpre 0 (Nat.le_0_l _)) as Hpre0.
    pose proof (Hre 0 (Nat.lt_0_succ _)) as Hre0.
    rewrite Nat.add_0_r in Hpre0, Hre0. cbn [entry_at snd] in Hre0.
    destruct (IH (S r) (subcontext w (forwarded cp)) (forwarded cp))
      as (tr' & res & Hrun & Hf' & Hr').
    + intros i Hi. replace (S r + i) with (r + S i) by lia.
      apply Hpre. lia.
    + intros i Hi. replace (S r + i) with (r + S i) by lia.
      apply (Hre (S i)). lia.
    + replace (S r + k) with (r + S k) by lia. exact Hlast.
    + cbn [cmd_configure]. rewrite Hpre0.
      unfold refetches_at, refetches in Hre0.
      destruct (normalize ns (yes p) (no p) (opts p)) as [options|e];
        [|discriminate Hre0].
      destruct (configure_attempt_counts w r p options) as [Hf Hr].
      destruct (configure_attempt w r p options) as [tr [[]|e]];
        cbn [fst snd] in *; try discriminate Hre0.
      destruct e as [ | c | | | | | ]; try discriminate Hre0.
      apply andb_true_iff in Hre0. destruct Hre0 as [Hyes Hpull].
      destruct (pull w r c) eqn:Ep; [discriminate Hpull|].
      cbn [cmd_configure] in Hrun. cbn [cmd_configure].
      rewrite Hrun. unfold on_missing_component. rewrite Hyes, Ep.
      eexists _, _. split; [reflexivity|].
      change (Preflight :: ?l) with ([Preflight] ++ l).
      rewrite !fetches_app, !reentries_app, Hf, Hr, Hf', Hr'.
      destruct (force_configure p); cbn; split; lia.
Qed.

End RetryFacts.

(** No bound on the number of re-entries: for every [k] there are
    collaborators with which one invocation fetches and re-enters [k]
    times. *)
Corollary reentries_unbounded (k : nat) :
  exists tr res,
    invocation "CONFIG_" (S k) (world true app_two k)
      (params (Some "xen") None None false [] [] []) = Some (tr, res)
    /\ fetches tr = k /\ reentries tr = k.
Proof.
  apply (retry_chain "CONFIG_" (world true app_two k) k 0).
  - intros i _. reflexivity.
  - intros i Hi. apply Nat.ltb_lt in Hi.
    destruct i as [|i].
    + cbv -[Nat.ltb]. cbv -[Nat.ltb] in Hi. now rewrite Hi.
    + fold (params_at (world true app_two k)
              (params (Some "xen") None None false [] [] []) (S i)).
      rewrite params_at_kept by reflexivity.
      cbv -[Nat.ltb]. cbv -[Nat.ltb] in Hi. now rewrite Hi.
  - cbn [Nat.add].
    assert (H : Nat.ltb k k = false) by apply Nat.ltb_irrefl.
    destruct k as [|k].
    + reflexivity.
    + fold (params_at (world true app_two (S k))
              (params (Some "xen") None None false [] [] []) (S k)).
      rewrite params_at_kept by reflexivity.
      cbv -[Nat.ltb]. cbv -[Nat.ltb] in H. now rewrite H.
Qed.

(** C2, as stated, fails: [app.configure] raises [MissingComponent] in the
    first two entries; after the first fetch and the forced re-entry, the
    second failure is answered by a second fetch and a second re-entry, and
    the invocation returns normally. *)
Lemma C2_second_failure_is_retried_counterexample :
  invocation "CONFIG_" 3 (world true app_two 2)
    (params (Some "xen") None None false [] [] [])
  = Some ([Preflight; Log Debug (Text "Configuring /app...");
           FromWorkdir "/app" false []; Configure (TObj t_xen) [] false;
           Log Warn (OfExn (MissingComponent "lwip"));
           Confirm "Would you like to pull lwip?"; Pull "lwip"; Forward;
           Preflight; Log Debug (Text "Configuring /app...");
           FromWorkdir "/app" true []; Configure (TObj t_xen) [] true;
           Pull "lwip"; Forward;
           Preflight; Log Debug (Text "Configuring /app...");
           FromWorkdir "/app" true []; Configure (TObj t_xen) [] true;
           SaveYaml],
          Ok tt).
Proof.
  reflexivity.
Qed.

(** The same invocation with a click that leaves the context of the
    forwarded call empty: the second fetch and the second re-entry are made
    all the same; the second re-entry runs on the default parameters, so no
    target name is left and the prompt is made. *)
Example second_failure_is_retried_without_kept_params :
  invocation "CONFIG_" 3 (world_click7 true app_two 2)
    (params (Some "xen") None None false ["a"] [] [])
  = Some ([Preflight; Log Debug (Text "Configuring /app...");
           FromWorkdir "/app" false [];
           Configure (TObj t_xen) ["CONFIG_a=y"] false;
           Log Warn (OfExn (MissingComponent "lwip"));
           Confirm "Would you like to pull lwip?"; Pull "lwip"; Forward;
           Preflight; Log Debug (Text "Configuring /app...");
           FromWorkdir "/app" true [];
           Configure (TObj t_xen) ["CONFIG_a=y"] true;
           Pull "lwip"; Forward;
           Preflight; Log Debug (Text "Configuring /app...");
           FromWorkdir "/app" true [];
           Prompt ["app_kvm-x86_64 (kvm)"; "app_xen-arm64 (xen)"];
           Configure TNone [] true;
           SaveYaml],
          Ok tt).
Proof.
  reflexivity.
Qed.

(** C2 (amended).  The recovery is not limited to one re-entry.  Every entry
    whose configure attempt fails with [MissingComponent] and whose fetch is
    agreed to (force mode, or the operator's yes) and succeeds is followed by
    a re-entry with force mode on, where a further [MissingComponent] is
    fetched without asking.  When the first [k] entries go this way and the
    next attempt does not fail with [MissingComponent], the invocation ends
    with exactly [k] fetches and [k] re-entries.  Each entry is taken with
    the arguments [ctx.forward] hands it. *)
Theorem C2_one_reentry_per_successful_fetch :
  forall (ns : string) (w : World) (k : nat) (p : Params),
    (forall i, i <= k -> preflight w i = None) ->
    (forall i, i < k -> refetches_at ns w i (params_at w p i) = true) ->
    missing_at ns w k (params_at w p k) = false ->
    exists tr res,
      invocation ns (S k) w p = Some (tr, res)
      /\ fetches tr = k /\ reentries tr = k.
Proof.
  intros ns w k p Hpre Hre Hlast.
  apply (retry_chain ns w k 0 (Some p) p); assumption.
Qed.

Lemma C2_one_reentry_per_successful_fetch_witness :
  exists tr res,
    invocation "CONFIG_" 4 (world true app_two 3)
      (params (Some "xen") None None false [] [] []) = Some (tr, res)
    /\ fetches tr = 3 /\ reentries tr = 3.
Proof.
  apply (C2_one_reentry_per_successful_fetch "CONFIG_" (world true app_two 3)
           3 (params (Some "xen") None None false [] [] [])).
  - intros i _. reflexivity.
  - intros i Hi. destruct i as [|[|[|i]]]; [reflexivity | reflexivity | reflexivity | lia].
  - reflexivity.
Defined.

(** * Further properties of [cmd_configure] and [kraft_configure] *)

(** ** The three loops of option normalization *)

Section LoopFacts.
Variable ns : string.

Lemma contains_append_false (c : ascii) (a b : string) :
  contains c a = false -> contains c b = false ->
  contains c (a ++ b) = false.
Proof.
  intros Ha Hb. induction a as [|x a IH]; cbn [append contains]; [exact Hb|].
  cbn [contains] in Ha. apply orb_false_iff in Ha. destruct Ha as [Hx Ha].
  now rewrite Hx, (IH Ha).
Qed.

Lemma namespaced_cases (tok : string) :
  contains "%"%char ns = false ->
  namespaced ns tok = Some tok \/ namespaced ns tok = Some (ns ++ tok)%string.
Proof.
  intros H. unfold namespaced.
  destruct (startswith (KCONFIG ns) tok); [now left|].
  right. now apply format_KCONFIG.
Qed.

Lemma namespaced_keeps (c : ascii) (tok K : string) :
  contains "%"%char ns = false ->
  namespaced ns tok = Some K ->
  contains c tok = true -> contains c K = true.
Proof.
  intros Hns HK Hc.
  destruct (namespaced_cases tok Hns) as [E|E]; rewrite E in HK;
    injection HK as <-; [exact Hc | now apply contains_append_r].
Qed.

Lemma namespaced_adds_nothing (c : ascii) (tok K : string) :
  contains "%"%char ns = false ->
  contains c ns = false ->
  namespaced ns tok = Some K ->
  contains c tok = false -> contains c K = false.
Proof.
  intros Hns Hc HK Ht.
  destruct (namespaced_cases tok Hns) as [E|E]; rewrite E in HK;
    injection HK as <-; [exact Ht | now apply contains_append_false].
Qed.

Lemma assignment_has_equals (k v : string) :
  contains "="%char (k ++ "=" ++ v) = true.
Proof.
  apply contains_append_r. reflexivity.
Qed.

Lemma mem_without_equals (x : string) (options : list string) :
  contains "="%char x = false ->
  Forall (fun a => contains "="%char a = true) options ->
  mem x options = false.
Proof.
  intros Hx. unfold mem. induction 1 as [|a options Ha _ IH]; [reflexivity|].
  cbn [existsb]. rewrite IH, orb_false_r.
  destruct (String.eqb x a) eqn:E; [|reflexivity].
  apply String.eqb_eq in E. congruence.
Qed.

Lemma enable_loop_total (yes acc : list string) :
  contains "%"%char ns = false ->
  exists keys,
    Forall2 (fun y K => namespaced ns y = Some K) yes keys /\
    enable_loop ns yes acc
    = Options (acc ++ map (fun K => (K ++ "=y")%string) keys).
Proof.
  intros Hns. revert acc.
  induction yes as [|y yes IH]; intros acc.
  - exists []. split; [constructor|]. cbn [enable_loop map]. now rewrite app_nil_r.
  - destruct (namespaced_total ns y Hns) as [K HK].
    destruct (IH (acc ++ [(K ++ "=y")%string])) as (keys & Hk & Hrun).
    exists (K :: keys). split; [now constructor|].
    cbn [enable_loop map]. rewrite HK, format_KCONFIG_EQ.
    change (K ++ "=" ++ KCONFIG_Y)%string with (K ++ "=y")%string.
    rewrite Hrun, <- app_assoc. reflexivity.
Qed.

Lemma disable_loop_no_conflict (no acc : list string) :
  contains "%"%char ns = false ->
  contains "="%char ns = false ->
  Forall (fun n => contains "="%char n = false) no ->
  Forall (fun a => contains "="%char a = true) acc ->
  exists keys,
    Forall2 (fun n K => namespaced ns n = Some K) no keys /\
    disable_loop ns no acc
    = Options (acc ++ map (fun K => (K ++ "=n")%string) keys).
Proof.
  intros Hns Heq Hno. revert acc.
  induction Hno as [|n no Hn _ IH]; intros acc Hacc.
  - exists []. split; [constructor|]. cbn [disable_loop map]. now rewrite app_nil_r.
  - destruct (namespaced_total ns n Hns) as [K HK].
    assert (HKeq : contains "="%char K = false)
      by (apply (namespaced_adds_nothing "="%char n K); assumption).
    destruct (IH (acc ++ [(K ++ "=n")%string])) as (keys & Hk & Hrun).
    { apply Forall_app. split; [exact Hacc|].
      constructor; [|constructor]. apply (assignment_has_equals K "n"). }
    exists (K :: keys). split; [now constructor|].
    cbn [disable_loop map]. rewrite HK, (mem_without_equals K acc HKeq Hacc).
    rewrite format_KCONFIG_EQ.
    change (K ++ "=" ++ KCONFIG_N)%string with (K ++ "=n")%string.
    rewrite Hrun, <- app_assoc. reflexivity.
Qed.

Lemma enable_loop_shape (yes acc o : list string) :
  enable_loop ns yes acc = Options o ->
  length o = length acc + length yes
  /\ (Forall (fun a => contains "="%char a = true) acc ->
      Forall (fun a => contains "="%char a = true) o).
Proof.
  revert acc. induction yes as [|y yes IH]; intros acc; cbn [enable_loop].
  - intros [= <-]. split; [cbn [length]; lia | auto].
  - destruct (namespaced ns y) as [K|]; [|discriminate].
    rewrite format_KCONFIG_EQ. intros H.
    destruct (IH _ H) as [Hlen Hall]. split.
    + rewrite Hlen, length_app. cbn [length]. lia.
    + intros Hacc. apply Hall, Forall_app. split; [exact Hacc|].
      constructor; [|constructor]. apply assignment_has_equals.
Qed.

Lemma disable_loop_shape (no acc o : list string) :
  disable_loop ns no acc = Options o ->
  length o = length acc + length no
  /\ (Forall (fun a => contains "="%char a = true) acc ->
      Forall (fun a => contains "="%char a = true) o).
Proof.
  revert acc. induction no as [|n no IH]; intros acc; cbn [disable_loop].
  - intros [= <-]. split; [cbn [length]; lia | auto].
  - destruct (namespaced ns n) as [K|]; [|discriminate].
    destruct (mem K acc); [discriminate|].
    rewrite format_KCONFIG_EQ. intros H.
    destruct (IH _ H) as [Hlen Hall]. split.
    + rewrite Hlen, length_app. cbn [length]. lia.
    + intros Hacc. apply Hall, Forall_app. split; [exact Hacc|].
      constructor; [|constructor]. apply assignment_has_equals.
Qed.

Lemma set_loop_shape (opts acc o : list string) :
  set_loop ns opts acc = Options o ->
  length o = length acc + length opts
  /\ (Forall (fun a => contains "="%char a = true) acc ->
      Forall (fun a => contains "="%char a = true) o).
Proof.
  revert acc. induction opts as [|x opts IH]; intros acc; cbn [set_loop].
  - intros [= <-]. split; [cbn [length]; lia | auto].
  - destruct (namespaced ns x) as [K|]; [|discriminate].
    destruct (contains "="%char K) eqn:E; cbn [negb]; [|discriminate].
    intros H. destruct (IH _ H) as [Hlen Hall]. split.
    + rewrite Hlen, length_app. cbn [length]. lia.
    + intros Hacc. apply Hall, Forall_app. split; [exact Hacc|].
      constructor; [exact E|constructor].
Qed.

Lemma set_loop_first_without_value (pre : list string) (o : string)
    (post acc : list string) (K : string) :
  contains "%"%char ns = false ->
  Forall (fun x => contains "="%char x = true) pre ->
  namespaced ns o = Some K ->
  contains "="%char K = false ->
  set_loop ns (pre ++ o :: post) acc = Failed (MissingOptionValue K).
Proof.
  intros Hns Hpre HK HKeq. revert acc.
  induction Hpre as [|x pre Hx _ IH]; intros acc.
  - cbn [List.app set_loop]. now rewrite HK, HKeq.
  - cbn [List.app set_loop].
    destruct (namespaced_total ns x Hns) as [X HX]. rewrite HX.
    rewrite (namespaced_keeps "="%char x X Hns HX Hx). cbn [negb]. apply IH.
Qed.

End LoopFacts.

(** X1.  Enabling never fails: for a namespace prefix without ['%'], any
    list of enable tokens alone normalizes to one assignment [K=y] per token,
    [K] the namespaced token, in input order; repeated tokens are kept. *)
Theorem X1_enable_only_never_fails :
  forall (ns : string) (yes : list string),
    contains "%"%char ns = false ->
    exists keys,
      Forall2 (fun y K => namespaced ns y = Some K) yes keys /\
      normalize ns yes [] [] = Options (map (fun K => (K ++ "=y")%string) keys).
Proof.
  intros ns yes Hns.
  destruct (enable_loop_total ns yes [] Hns) as (keys & Hk & Hrun).
  exists keys. split; [exact Hk|].
  unfold normalize. rewrite Hrun. reflexivity.
Qed.

Lemma X1_enable_only_never_fails_witness :
  exists keys,
    Forall2 (fun y K => namespaced "CONFIG_" y = Some K) ["a"; "b=1"; "a"] keys /\
    normalize "CONFIG_" ["a"; "b=1"; "a"] [] []
    = Options (map (fun K => (K ++ "=y")%string) keys).
Proof.
  apply (X1_enable_only_never_fails "CONFIG_" ["a"; "b=1"; "a"]). reflexivity.
Defined.

(** X2.  A setting without ['='] stops normalization: when the enable and
    disable lists normalize, the prefix has neither ['%'] nor ['='], every
    earlier setting has a ['='] and the setting [o] has none, the result is
    the missing-value failure naming the namespaced [o], whatever settings
    follow. *)
Theorem X2_first_setting_without_value_fails :
  forall (ns : string) (yes no q pre : list string) (o : string)
         (post : list string),
    contains "%"%char ns = false ->
    contains "="%char ns = false ->
    normalize ns yes no [] = Options q ->
    Forall (fun x => contains "="%char x = true) pre ->
    contains "="%char o = false ->
    exists K,
      namespaced ns o = Some K /\
      normalize ns yes no (pre ++ o :: post) = Failed (MissingOptionValue K).
Proof.
  intros ns yes no q pre o post Hns Heq Hq Hpre Ho.
  destruct (namespaced_total ns o Hns) as [K HK].
  exists K. split; [exact HK|].
  unfold normalize in *.
  destruct (enable_loop ns yes []) as [o1|e]; [|discriminate].
  destruct (disable_loop ns no o1) as [o2|e]; [|discriminate].
  apply set_loop_first_without_value; try assumption.
  now apply (namespaced_adds_nothing ns "="%char o K).
Qed.

Lemma X2_first_setting_without_value_fails_witness :
  exists K,
    namespaced "CONFIG_" "d" = Some K /\
    normalize "CONFIG_" ["a"] ["b"] (["c=2"] ++ "d" :: ["e=3"])
    = Failed (MissingOptionValue K).
Proof.
  apply (X2_first_setting_without_value_fails "CONFIG_" ["a"] ["b"]
           ["CONFIG_a=y"; "CONFIG_b=n"] ["c=2"] "d" ["e=3"]).
  - reflexivity.
  - reflexivity.
  - reflexivity.
  - repeat constructor.
  - reflexivity.
Defined.

(** X3.  No conflict is ever reported for disable tokens without ['=']:
    when neither the prefix nor any disable token contains ['='] (and the
    prefix has no ['%']), the enable and disable lists normalize to the
    enable assignments [K=y] followed by the disable assignments [K=n], in
    input order, whether or not the two lists share keys. *)
Theorem X3_no_conflict_without_equals_sign :
  forall (ns : string) (yes no : list string),
    contains "%"%char ns = false ->
    contains "="%char ns = false ->
    Forall (fun n => contains "="%char n = false) no ->
    exists ky kn,
      Forall2 (fun y K => namespaced ns y = Some K) yes ky /\
      Forall2 (fun n K => namespaced ns n = Some K) no kn /\
      normalize ns yes no []
      = Options (map (fun K => (K ++ "=y")%string) ky
                 ++ map (fun K => (K ++ "=n")%string) kn).
Proof.
  intros ns yes no Hns Heq Hno.
  destruct (enable_loop_total ns yes [] Hns) as (ky & Hky & Hy).
  cbn [List.app] in Hy.
  destruct (disable_loop_no_conflict ns no
              (map (fun K => (K ++ "=y")%string) ky) Hns Heq Hno)
    as (kn & Hkn & Hn).
  { apply Forall_forall. intros a Ha. apply in_map_iff in Ha.
    destruct Ha as (K & <- & _). apply (assignment_has_equals K "y"). }
  exists ky, kn. split; [exact Hky|]. split; [exact Hkn|].
  unfold normalize. rewrite Hy, Hn. reflexivity.
Qed.

Lemma X3_no_conflict_without_equals_sign_witness :
  exists ky kn,
    Forall2 (fun y K => namespaced "CONFIG_" y = Some K) ["a"; "b"] ky /\
    Forall2 (fun n K => namespaced "CONFIG_" n = Some K) ["b"; "b"] kn /\
    normalize "CONFIG_" ["a"; "b"] ["b"; "b"] []
    = Options (map (fun K => (K ++ "=y")%string) ky
               ++ map (fun K => (K ++ "=n")%string) kn).
Proof.
  apply (X3_no_conflict_without_equals_sign "CONFIG_" ["a"; "b"] ["b"; "b"]).
  - reflexivity.
  - reflexivity.
  - repeat constructor.
Defined.

(** X4.  Whenever normalization succeeds, it yields one assignment per
    input token (nothing is dropped or merged) and every assignment contains
    an ['=']. *)
Theorem X4_one_assignment_per_token :
  forall (ns : string) (yes no opts o : list string),
    normalize ns yes no opts = Options o ->
    length o = length yes + length no + length opts
    /\ Forall (fun a => contains "="%char a = true) o.
Proof.
  intros ns yes no opts o H. unfold normalize in H.
  destruct (enable_loop ns yes []) as [o1|e] eqn:E1; [|discriminate].
  destruct (disable_loop ns no o1) as [o2|e] eqn:E2; [|discriminate].
  destruct (enable_loop_shape ns yes [] o1 E1) as [L1 A1].
  destruct (disable_loop_shape ns no o1 o2 E2) as [L2 A2].
  destruct (set_loop_shape ns opts o2 o H) as [L3 A3].
  split.
  - rewrite L3, L2, L1. cbn [length]. lia.
  - apply A3, A2, A1. constructor.
Qed.

Lemma X4_one_assignment_per_token_witness :
  length ["CONFIG_a=y"; "CONFIG_a=y"; "CONFIG_b=n"; "CONFIG_c=2"]
  = length ["a"; "a"] + length ["b"] + length ["c=2"]
  /\ Forall (fun a => contains "="%char a = true)
            ["CONFIG_a=y"; "CONFIG_a=y"; "CONFIG_b=n"; "CONFIG_c=2"].
Proof.
  apply (X4_one_assignment_per_token "CONFIG_" ["a"; "a"] ["b"] ["c=2"]).
  reflexivity.
Defined.

(** X5.  A token that already starts with the namespace prefix is prefixed
    once more: the test [startswith(KCONFIG)] compares with the whole format
    string, so a token without ['%'] never passes it. *)
Theorem X5_prefixed_token_is_prefixed_again :
  forall (ns k : string),
    contains "%"%char ns = false ->
    contains "%"%char k = false ->
    normalize ns [(ns ++ k)%string] [] []
    = Options [(ns ++ ns ++ k ++ "=y")%string].
Proof.
  intros ns k Hns Hk. unfold normalize. cbn [enable_loop disable_loop set_loop].
  rewrite (namespaced_bare ns (ns ++ k)%string Hns)
    by (now apply contains_append_false).
  rewrite format_KCONFIG_EQ. cbn [List.app].
  rewrite !append_assoc_r. reflexivity.
Qed.

Lemma X5_prefixed_token_is_prefixed_again_witness :
  normalize "CONFIG_" [("CONFIG_" ++ "LIBNOLIBC")%string] [] []
  = Options [("CONFIG_" ++ "CONFIG_" ++ "LIBNOLIBC" ++ "=y")%string].
Proof.
  apply (X5_prefixed_token_is_prefixed_again "CONFIG_" "LIBNOLIBC"); reflexivity.
Defined.

(** ** Hints, labels and the way back from a label *)

Section LabelFacts.

Lemma scan_partial_hints (arch plat : option string) (ts : list Target) :
  arch = None \/ plat = None ->
  scan None arch plat ts = None.
Proof.
  intros H. induction ts as [|t ts IH]; [reflexivity|].
  cbn [scan name_matches]. unfold hw_matches.
  destruct H as [-> | ->]; cbn [hint_eq andb]; [exact IH|].
  rewrite andb_false_r. exact IH.
Qed.

Lemma labels_named_have_parenthesis (bs : list Target) (ls : list string) :
  Forall (fun t => name t <> None) bs ->
  labels bs = Ok ls ->
  Forall (fun l => contains "("%char l = true) ls.
Proof.
  intros Hn. revert ls. induction Hn as [|t bs Ht _ IH]; intros ls.
  - intros [= <-]. constructor.
  - cbn [labels]. unfold label.
    destruct (binary t) as [p|]; [|discriminate].
    destruct (name t) as [n|]; [|congruence].
    destruct (labels bs) as [ls'|e]; [|discriminate].
    intros [= <-]. constructor; [|now apply IH].
    apply contains_append_r. reflexivity.
Qed.

Lemma work_backwards_no_basename (a : string) (bs : list Target)
    (ls : list string) :
  labels bs = Ok ls ->
  Forall (fun t => forall p, binary t = Some p ->
                             contains "("%char (basename p) = false) bs ->
  contains "("%char a = true ->
  work_backwards (Some a) bs = Ok TNone.
Proof.
  intros Hl Hb Ha. revert ls Hl.
  induction Hb as [|t bs Ht _ IH]; intros ls; [reflexivity|].
  cbn [labels work_backwards]. unfold label.
  destruct (binary t) as [p|]; [|discriminate].
  destruct (labels bs) as [ls'|e]; [|destruct (name t); discriminate].
  intros _.
  destruct (String.eqb a (basename p)) eqn:E.
  - apply String.eqb_eq in E. rewrite E, (Ht p eq_refl) in Ha. discriminate.
  - now apply (IH ls').
Qed.

End LabelFacts.

(** X6.  Half a hardware hint selects nothing: with no target name and an
    architecture or a platform missing, and neither a single target nor a
    single binary, the automatic steps resolve no target (the prompt is
    what follows). *)
Theorem X6_partial_hints_resolve_nothing :
  forall (app : Application) (arch plat : option string),
    length (targets app) <> 1 ->
    length (binaries app) <> 1 ->
    arch = None \/ plat = None ->
    resolve_auto app None arch plat = TNone.
Proof.
  intros app arch plat Ht Hb H.
  rewrite (resolve_auto_scan app None arch plat Ht Hb).
  now rewrite (scan_partial_hints arch plat (targets app) H).
Qed.

Lemma X6_partial_hints_resolve_nothing_witness :
  resolve_auto app_two None (Some "x86_64") None = TNone.
Proof.
  apply (X6_partial_hints_resolve_nothing app_two (Some "x86_64") None).
  - simpl. lia.
  - simpl. lia.
  - now right.
Defined.

(** X7.  With neither a single target nor a single binary, a supplied
    target name is left as a bare string exactly when no declared target has
    that name or matches both hardware hints. *)
Theorem X7_name_left_unresolved_iff_nothing_matches :
  forall (app : Application) (s : string) (arch plat : option string),
    length (targets app) <> 1 ->
    length (binaries app) <> 1 ->
    (resolve_auto app (Some s) arch plat = TName s
     <-> Forall (fun t => qualifies (Some s) arch plat t = false) (targets app)).
Proof.
  intros app s arch plat Ht Hb.
  rewrite (resolve_auto_scan app (Some s) arch plat Ht Hb).
  destruct (scan (Some s) arch plat (targets app)) as [t|] eqn:E.
  - split; [discriminate|]. intros Hall.
    destruct (scan_some _ _ _ _ _ E) as (pre & post & Hts & _ & Hq).
    rewrite Forall_forall in Hall.
    assert (Hin : In t (targets app))
      by (rewrite Hts; apply in_or_app; right; now left).
    rewrite (Hall t Hin) in Hq. discriminate.
  - split; [|reflexivity]. intros _. now apply scan_none.
Qed.

Lemma X7_name_left_unresolved_iff_nothing_matches_witness :
  resolve_auto app_two (Some "zzz") None None = TName "zzz"
  <-> Forall (fun t => qualifies (Some "zzz") None None t = false)
             (targets app_two).
Proof.
  apply (X7_name_left_unresolved_iff_nothing_matches app_two "zzz" None None);
    simpl; lia.
Defined.

(** X8.  The list of choices has one label per entry of [app.binaries] when
    every entry has a binary path, and building it raises [TypeError] as soon
    as one entry has none. *)
Theorem X8_labels_need_every_binary_path :
  forall bs : list Target,
    (Forall (fun t => binary t <> None) bs ->
     exists ls, labels bs = Ok ls /\ length ls = length bs)
    /\ (Exists (fun t => binary t = None) bs -> labels bs = Raise TypeError).
Proof.
  intros bs. split.
  - induction 1 as [|t bs Ht _ (ls & Hl & Hn)].
    + now exists [].
    + cbn [labels]. unfold label.
      destruct (binary t) as [p|]; [|congruence].
      rewrite Hl.
      destruct (name t); eexists; (split; [reflexivity|]); cbn [length];
        now rewrite Hn.
  - induction 1 as [t bs Ht|t bs _ IH].
    + cbn [labels]. unfold label. now rewrite Ht.
    + cbn [labels]. unfold label. rewrite IH.
      destruct (binary t); [|reflexivity]. now destruct (name t).
Qed.

(** X9.  For entries without a name the way back works: when no entry of
    [app.binaries] has a name, any of the offered choices leads back to an
    entry of the list whose label is that choice. *)
Theorem X9_unnamed_choice_maps_back :
  forall (bs : list Target) (ls : list string) (a : string),
    Forall (fun t => name t = None) bs ->
    labels bs = Ok ls ->
    In a ls ->
    exists b,
      work_backwards (Some a) bs = Ok (TObj b) /\ In b bs /\ label b = Ok a.
Proof.
  intros bs ls a Hn. revert ls.
  induction Hn as [|t bs Ht _ IH]; intros ls.
  - intros [= <-] [].
  - cbn [labels work_backwards].
    destruct (label t) as [l|e] eqn:El; [|discriminate].
    unfold label in El. rewrite Ht in El.
    destruct (binary t) as [p|] eqn:Ep; [|discriminate].
    injection El as <-.
    destruct (labels bs) as [ls'|e]; [|discriminate].
    intros [= <-] Hin.
    destruct (String.eqb a (basename p)) eqn:E.
    + apply String.eqb_eq in E. exists t. repeat split; [now left|].
      unfold label. now rewrite Ep, Ht, E.
    + destruct Hin as [Heq|Hin].
      * rewrite Heq, String.eqb_refl in E. discriminate.
      * destruct (IH ls' eq_refl Hin) as (b & Hw & Hb & Hl).
        exists b. repeat split; [exact Hw | now right | exact Hl].
Qed.

Lemma X9_unnamed_choice_maps_back_witness :
  exists b,
    work_backwards (Some "app_xen-arm64") (binaries app_unnamed) = Ok (TObj b)
    /\ In b (binaries app_unnamed) /\ label b = Ok "app_xen-arm64".
Proof.
  apply (X9_unnamed_choice_maps_back (binaries app_unnamed)
           ["app_kvm-x86_64"; "app_xen-arm64"] "app_xen-arm64").
  - repeat constructor.
  - reflexivity.
  - simpl. auto.
Defined.

(** X10.  For entries with a name the way back finds nothing: the label
    carries the suffix [" (name)"] while the comparison is with the bare
    basename.  When every entry of [app.binaries] has a name and no basename
    contains a ['('], each of the offered choices leads back to no target. *)
Theorem X10_named_choice_maps_back_to_nothing :
  forall (bs : list Target) (ls : list string) (a : string),
    Forall (fun t => name t <> None) bs ->
    Forall (fun t => forall p, binary t = Some p ->
                               contains "("%char (basename p) = false) bs ->
    labels bs = Ok ls ->
    In a ls ->
    work_backwards (Some a) bs = Ok TNone.
Proof.
  intros bs ls a Hn Hb Hl Hin.
  apply (work_backwards_no_basename a bs ls Hl Hb).
  pose proof (labels_named_have_parenthesis bs ls Hn Hl) as Hp.
  rewrite Forall_forall in Hp. now apply Hp.
Qed.

Lemma X10_named_choice_maps_back_to_nothing_witness :
  work_backwards (Some "app_xen-arm64 (xen)") (binaries app_two) = Ok TNone.
Proof.
  apply (X10_named_choice_maps_back_to_nothing (binaries app_two)
           ["app_kvm-x86_64 (kvm)"; "app_xen-arm64 (xen)"]
           "app_xen-arm64 (xen)").
  - repeat constructor; discriminate.
  - repeat constructor; intros p [= <-]; reflexivity.
  - reflexivity.
  - simpl. auto.
Defined.

Lemma X8_labels_need_every_binary_path_witness :
  exists ls, labels (binaries app_two) = Ok ls /\ length ls = length (binaries app_two).
Proof.
  apply (proj1 (X8_labels_need_every_binary_path (binaries app_two))).
  repeat constructor; discriminate.
Defined.

(** ** What [kraft_configure] calls, and with what *)

Section AttemptFacts.
Variable w : World.
Variable round : nat.

Lemma trace_bind {A B} (P : event -> Prop) (m : M A) (f : A -> M B) :
  Forall P (fst m) ->
  (forall a, snd m = Ok a -> Forall P (fst (f a))) ->
  Forall P (fst (bind m f)).
Proof.
  intros Hm Hf. destruct m as [tr [a|e]]; cbn [bind fst snd] in *; [|exact Hm].
  specialize (Hf a eq_refl). destruct (f a) as [tr' r]. cbn [fst] in *.
  apply Forall_app. now split.
Qed.

Lemma already_configured_check_value (app : Application) (wd : string)
    (force f : bool) :
  snd (already_configured_check w round app wd force) = Ok f ->
  f = (force || is_configured app)
  /\ (is_configured app = true -> force = false ->
      confirm w round (overwrite_question wd) = true).
Proof.
  unfold already_configured_check.
  destruct (is_configured app), force; cbn [andb negb bind emit ret snd orb].
  - intros [= <-]. split; [reflexivity | discriminate].
  - destruct (confirm w round (overwrite_question wd));
      cbn [ret raise snd]; [|discriminate].
    intros [= <-]. split; [reflexivity | reflexivity].
  - intros [= <-]. split; [reflexivity | discriminate].
  - intros [= <-]. split; [reflexivity | discriminate].
Qed.

Lemma already_configured_check_trace (app : Application) (wd : string)
    (force : bool) (P : event -> Prop) :
  (force = false -> P (Confirm (overwrite_question wd))) ->
  Forall P (fst (already_configured_check w round app wd force)).
Proof.
  intros HP. unfold already_configured_check.
  destruct (is_configured app), force; cbn [andb negb bind emit ret fst];
    try constructor.
  destruct (confirm w round (overwrite_question wd)); cbn [ret raise fst];
    repeat constructor; now apply HP.
Qed.

Lemma target_resolution_trace_Forall (app : Application)
    (target arch plat : option string) (P : event -> Prop) :
  (forall choices, P (Prompt choices)) ->
  Forall P (fst (target_resolution w round app target arch plat)).
Proof.
  intros HP.
  destruct (target_resolution_trace w round app target arch plat)
    as [-> | (ch & _ & _ & ->)]; repeat constructor. apply HP.
Qed.

(** The calls of one run of [kraft_configure]. *)
Lemma kraft_configure_events (workdir target plat arch : option string)
    (force menu : bool) (options uv : list string) :
  Forall (attempt_event force options)
         (fst (kraft_configure w round workdir target plat arch force menu
                 options uv)).
Proof.
  unfold kraft_configure.
  destruct workdir as [wd|]; [|constructor].
  destruct (negb (path_exists w wd)); [constructor|].
  apply trace_bind; [repeat constructor|intros _ _].
  apply trace_bind; [repeat constructor|intros app _].
  destruct menu.
  { destruct (isatty w); repeat constructor. }
  unfold configure_loaded.
  apply trace_bind.
  { apply already_configured_check_trace. intros H. exact H. }
  intros f Hf. apply already_configured_check_value in Hf. destruct Hf as [Hf _].
  apply trace_bind.
  { apply target_resolution_trace_Forall. intros ch. exact I. }
  intros tv _.
  apply trace_bind.
  - repeat constructor. intros ->. now rewrite Hf.
  - intros _ _. repeat constructor.
Qed.

(** What is known when [app.configure] is reached. *)
Lemma configure_loaded_reached (app : Application) (wd : string)
    (target plat arch : option string) (force : bool) (options : list string)
    (tv : target_value) (o : list string) (f : bool) :
  In (Configure tv o f)
     (fst (configure_loaded w round app wd target plat arch force options)) ->
  f = (force || is_configured app)
  /\ (is_configured app = true -> force = false ->
      confirm w round (overwrite_question wd) = true).
Proof.
  unfold configure_loaded. intros H.
  destruct (already_configured_check w round app wd force) as [tr0 [f0|e]] eqn:E0.
  2:{ cbn [bind fst] in H. exfalso.
      pose proof (already_configured_check_trace app wd force
                    (fun ev => forall tv o f, ev <> Configure tv o f)) as Hn.
      rewrite E0 in Hn. cbn [fst] in Hn.
      rewrite Forall_forall in Hn.
      apply (Hn (fun _ => ltac:(discriminate)) _ H tv o f eq_refl). }
  pose proof (already_configured_check_value app wd force f0) as Hv.
  rewrite E0 in Hv. destruct (Hv eq_refl) as [Hf0 Hc].
  pose proof (already_configured_check_trace app wd force
                (fun ev => forall tv o f, ev <> Configure tv o f)
                (fun _ => ltac:(discriminate))) as Hn0.
  rewrite E0 in Hn0. cbn [fst] in Hn0. rewrite Forall_forall in Hn0.
  pose proof (target_resolution_trace_Forall app target arch plat
                (fun ev => forall tv o f, ev <> Configure tv o f)
                (fun _ => ltac:(discriminate))) as Hn1.
  rewrite Forall_forall in Hn1.
  cbn [bind] in H.
  destruct (target_resolution w round app target arch plat) as [tr1 [v|e]];
    cbn [bind fst call_] in H, Hn1.
  - destruct (configure w round v options f0), (save_yaml w round);
      cbn [fst List.app] in H;
      apply in_app_or in H; destruct H as [H|H];
      try (exfalso; apply (Hn0 _ H tv o f eq_refl));
      apply in_app_or in H; destruct H as [H|H];
      try (exfalso; apply (Hn1 _ H tv o f eq_refl));
      cbn [In List.app] in H;
      repeat (destruct H as [H|H]; try discriminate H); try contradiction;
      injection H as <- <- <-; split; assumption.
  - apply in_app_or in H. destruct H as [H|H];
      [exfalso; apply (Hn0 _ H tv o f eq_refl)
      |exfalso; apply (Hn1 _ H tv o f eq_refl)].
Qed.

(** [app.save_yaml] is reached only through an [app.configure] that
    returned. *)
Lemma configure_loaded_saved (app : Application) (wd : string)
    (target plat arch : option string) (force : bool) (options : list string) :
  In SaveYaml
     (fst (configure_loaded w round app wd target plat arch force options)) ->
  exists tv f,
    In (Configure tv options f)
       (fst (configure_loaded w round app wd target plat arch force options))
    /\ configure w round tv options f = None.
Proof.
  unfold configure_loaded. intros H.
  pose proof (already_configured_check_trace app wd force
                (fun ev => ev <> SaveYaml) (fun _ => ltac:(discriminate))) as Hn0.
  rewrite Forall_forall in Hn0.
  pose proof (target_resolution_trace_Forall app target arch plat
                (fun ev => ev <> SaveYaml) (fun _ => ltac:(discriminate))) as Hn1.
  rewrite Forall_forall in Hn1.
  destruct (already_configured_check w round app wd force) as [tr0 [f0|e]];
    cbn [bind fst] in *; [|exfalso; apply (Hn0 _ H eq_refl)].
  destruct (target_resolution w round app target arch plat) as [tr1 [v|e]];
    cbn [bind fst call_] in *.
  - destruct (configure w round v options f0) as [e|] eqn:Ec;
      [|destruct (save_yaml w round)]; cbn [fst List.app] in *.
    + exfalso. apply in_app_or in H. destruct H as [H|H];
        [apply (Hn0 _ H eq_refl)|].
      apply in_app_or in H. destruct H as [H|H]; [apply (Hn1 _ H eq_refl)|].
      cbn [In] in H. destruct H as [H|H]; [discriminate H | contradiction].
    + exists v, f0. split; [|exact Ec].
      apply in_or_app. right. apply in_or_app. right. now left.
    + exists v, f0. split; [|exact Ec].
      apply in_or_app. right. apply in_or_app. right. now left.
  - exfalso. apply in_app_or in H. destruct H as [H|H];
      [apply (Hn0 _ H eq_refl) | apply (Hn1 _ H eq_refl)].
Qed.

End AttemptFacts.

Section LateEvents.
Variable w : World.
Variable round : nat.

(** A prompt, an [app.configure] or an [app.save_yaml] call is made only
    after the load, outside the menu-editor branch. *)
Lemma kraft_configure_late_event (workdir target plat arch : option string)
    (force menu : bool) (options uv : list string) (ev : event) :
  resolves_target ev = true ->
  In ev (fst (kraft_configure w round workdir target plat arch force menu
                options uv)) ->
  menu = false
  /\ exists wd app,
       workdir = Some wd /\
       path_exists w wd = true /\
       from_workdir w round wd force uv = Ok app /\
       In ev (fst (configure_loaded w round app wd target plat arch force options)).
Proof.
  intros Hev H. unfold kraft_configure in H.
  destruct workdir as [wd|]; [|contradiction].
  destruct (path_exists w wd) eqn:Hp; cbn [negb] in H; [|contradiction].
  cbn [bind emit call] in H.
  destruct (from_workdir w round wd force uv) as [app|e] eqn:Hl.
  2:{ cbn [In] in H. destruct H as [<-|[<-|[]]]; discriminate Hev. }
  destruct menu.
  { exfalso. destruct (isatty w); cbn [call_ raise fst List.app In] in H.
    - destruct (open_menuconfig w round); cbn [In] in H;
        repeat (destruct H as [<-|H]; try discriminate Hev); contradiction.
    - repeat (destruct H as [<-|H]; try discriminate Hev); contradiction. }
  split; [reflexivity|]. exists wd, app. repeat split; try assumption.
  destruct (configure_loaded w round app wd target plat arch force options)
    as [tr r].
  cbn [List.app In fst] in *.
  destruct H as [<-|[<-|H]]; [discriminate Hev | discriminate Hev | exact H].
Qed.

Lemma configure_loaded_decompose (app : Application) (wd : string)
    (target plat arch : option string) (force : bool) (options : list string) :
  exists post,
    fst (configure_loaded w round app wd target plat arch force options)
    = fst (already_configured_check w round app wd force) ++ post
    /\ (post = []
        \/ exists post',
             post = fst (target_resolution w round app target arch plat) ++ post'
             /\ Forall (fun ev => forall c, ev <> Prompt c) post').
Proof.
  unfold configure_loaded.
  destruct (already_configured_check w round app wd force) as [tr0 [f0|e]];
    cbn [bind fst].
  2:{ exists []. rewrite app_nil_r. auto. }
  destruct (target_resolution w round app target arch plat) as [tr1 [v|e]];
    cbn [bind fst call_].
  - destruct (configure w round v options f0), (save_yaml w round);
      cbn [fst List.app]; eexists; (split; [reflexivity|]); right;
      eexists; (split; [reflexivity|]); repeat constructor; discriminate.
  - exists tr1. split; [reflexivity|]. right. exists [].
    rewrite app_nil_r. split; [reflexivity | constructor].
Qed.

End LateEvents.

(** X11.  [app.configure] is called only when the working directory
    exists, the application loaded, the menu editor was not asked for and an
    existing configuration may be overwritten (force mode, or the operator
    confirmed); it receives the option list unchanged, and its force flag is
    set when force mode was asked for or the application was already
    configured. *)
Theorem X11_configure_call_conditions :
  forall (w : World) (round : nat) (workdir target plat arch : option string)
         (force menu : bool) (options uv : list string)
         (tv : target_value) (o : list string) (f : bool),
    In (Configure tv o f)
       (fst (kraft_configure w round workdir target plat arch force menu
               options uv)) ->
    o = options /\ menu = false
    /\ exists wd app,
         workdir = Some wd /\
         path_exists w wd = true /\
         from_workdir w round wd force uv = Ok app /\
         f = (force || is_configured app) /\
         (is_configured app = true -> force = false ->
          confirm w round (overwrite_question wd) = true).
Proof.
  intros w round workdir target plat arch force menu options uv tv o f H.
  pose proof (kraft_configure_events w round workdir target plat arch force
                menu options uv) as Hev.
  rewrite Forall_forall in Hev. destruct (Hev _ H) as [Ho _].
  split; [exact Ho|].
  destruct (kraft_configure_late_event w round workdir target plat arch force
              menu options uv (Configure tv o f) eq_refl H)
    as (Hm & wd & app & Hw & Hp & Hl & Hin).
  split; [exact Hm|]. exists wd, app. repeat split; try assumption;
    now destruct (configure_loaded_reached w round app wd target plat arch
                    force options tv o f Hin).
Qed.

Lemma X11_configure_call_conditions_witness :
  ["CONFIG_a=y"] = ["CONFIG_a=y"] /\ false = false
  /\ exists wd app,
       Some "/app" = Some wd /\
       path_exists (world true app_two 0) wd = true /\
       from_workdir (world true app_two 0) 0 wd false [] = Ok app /\
       false = (false || is_configured app) /\
       (is_configured app = true -> false = false ->
        confirm (world true app_two 0) 0 (overwrite_question wd) = true).
Proof.
  apply (X11_configure_call_conditions (world true app_two 0) 0 (Some "/app")
           (Some "xen") None None false false ["CONFIG_a=y"] []
           (TObj t_xen) ["CONFIG_a=y"] false).
  simpl. right. right. left. reflexivity.
Defined.

(** X12.  Nothing is saved after a failed configure: [app.save_yaml] is
    called only in a run in which [app.configure] was called with the option
    list and returned without raising. *)
Theorem X12_saved_only_after_configure_returned :
  forall (w : World) (round : nat) (workdir target plat arch : option string)
         (force menu : bool) (options uv : list string),
    In SaveYaml
       (fst (kraft_configure w round workdir target plat arch force menu
               options uv)) ->
    exists tv f,
      In (Configure tv options f)
         (fst (kraft_configure w round workdir target plat arch force menu
                 options uv))
      /\ configure w round tv options f = None.
Proof.
  intros w round workdir target plat arch force menu options uv H.
  destruct (kraft_configure_late_event w round workdir target plat arch force
              menu options uv SaveYaml eq_refl H)
    as (-> & wd & app & -> & Hp & Hl & Hin).
  destruct (configure_loaded_saved w round app wd target plat arch force
              options Hin) as (tv & f & Hc & Hok).
  exists tv, f. split; [|exact Hok].
  rewrite (kraft_configure_loaded w round wd app) by assumption.
  cbn [fst]. right. right. exact Hc.
Qed.

Lemma X12_saved_only_after_configure_returned_witness :
  exists tv f,
    In (Configure tv [] f)
       (fst (kraft_configure (world true app_two 0) 0 (Some "/app")
               (Some "xen") None None false false [] []))
    /\ configure (world true app_two 0) 0 tv [] f = None.
Proof.
  apply (X12_saved_only_after_configure_returned (world true app_two 0) 0
           (Some "/app") (Some "xen") None None false false [] []).
  simpl. right. right. right. left. reflexivity.
Defined.

(** X13.  The prompt is made only as a last resort: only when no target
    name was supplied, the menu editor was not asked for, the application
    has neither exactly one target nor exactly one binary, and it offers the
    labels of [app.binaries]. *)
Theorem X13_prompt_only_without_target_name :
  forall (w : World) (round : nat) (workdir target plat arch : option string)
         (force menu : bool) (options uv choices : list string),
    In (Prompt choices)
       (fst (kraft_configure w round workdir target plat arch force menu
               options uv)) ->
    target = None /\ menu = false
    /\ exists wd app,
         workdir = Some wd /\
         from_workdir w round wd force uv = Ok app /\
         length (targets app) <> 1 /\
         length (binaries app) <> 1 /\
         scan None arch plat (targets app) = None /\
         labels (binaries app) = Ok choices.
Proof.
  intros w round workdir target plat arch force menu options uv choices H.
  destruct (kraft_configure_late_event w round workdir target plat arch force
              menu options uv (Prompt choices) eq_refl H)
    as (Hm & wd & app & Hw & Hp & Hl & Hin).
  destruct (configure_loaded_decompose w round app wd target plat arch force
              options) as (post & Hpost & Hcases).
  rewrite Hpost in Hin. apply in_app_or in Hin.
  assert (Hres : In (Prompt choices)
                   (fst (target_resolution w round app target arch plat))).
  { destruct Hin as [Hin|Hin].
    - exfalso.
      pose proof (already_configured_check_trace w round app wd force
                    (fun ev => forall c, ev <> Prompt c)
                    (fun _ => ltac:(discriminate))) as Hn.
      rewrite Forall_forall in Hn. apply (Hn _ Hin choices eq_refl).
    - destruct Hcases as [->|(post' & -> & Hn)]; [contradiction|].
      apply in_app_or in Hin. destruct Hin as [Hin|Hin]; [exact Hin|].
      exfalso. rewrite Forall_forall in Hn. apply (Hn _ Hin choices eq_refl). }
  destruct (target_resolution_trace w round app target arch plat)
    as [He|(ch & Hch & Hr & He)]; rewrite He in Hres; [contradiction|].
  destruct Hres as [[= <-]|[]].
  destruct (resolve_auto_cases app target arch plat)
    as [(t & _ & Ha)|[(_ & b & _ & Ha)|(Hn1 & Hn2 & Ha)]];
    try congruence.
  rewrite Hr in Ha.
  destruct (scan target arch plat (targets app)) as [t|] eqn:Es;
    [discriminate Ha|].
  destruct target as [s|]; [discriminate Ha|].
  split; [reflexivity|]. split; [exact Hm|].
  exists wd, app. repeat split; assumption.
Qed.

Lemma X13_prompt_only_without_target_name_witness :
  (None : option string) = None /\ false = false
  /\ exists wd app,
       Some "/app" = Some wd /\
       from_workdir (world false app_unnamed 0) 0 wd false [] = Ok app /\
       length (targets app) <> 1 /\
       length (binaries app) <> 1 /\
       scan None None None (targets app) = None /\
       labels (binaries app) = Ok ["app_kvm-x86_64"; "app_xen-arm64"].
Proof.
  apply (X13_prompt_only_without_target_name (world false app_unnamed 0) 0
           (Some "/app") None None None false false [] []
           ["app_kvm-x86_64"; "app_xen-arm64"]).
  simpl. right. right. left. reflexivity.
Defined.

(** ** What [cmd_configure] does with the outcome of an attempt *)

(** X14.  With a terminal, the menu editor is all that runs: once the
    preflight passed, the options normalized, the working directory exists
    and the application loaded, [app.open_menuconfig] is called and the
    invocation returns; no confirmation is asked even for a configured
    application, no target is resolved, nothing is configured or saved. *)
Theorem X14_menu_editor_with_terminal :
  forall (ns : string) (fuel : nat) (w : World) (round : nat)
         (cp : option Params) (p : Params)
         (options : list string) (app : Application),
    show_menuconfig p = true ->
    isatty w = true ->
    preflight w round = None ->
    normalize ns (yes p) (no p) (opts p) = Options options ->
    path_exists w (effective_workdir w p) = true ->
    from_workdir w round (effective_workdir w p) (force_configure p)
      (use_versions p) = Ok app ->
    open_menuconfig w round = None ->
    cmd_configure ns (S fuel) w round cp p
    = Some ([Preflight;
             Log Debug (Text ("Configuring " ++ effective_workdir w p ++ "...")%string);
             FromWorkdir (effective_workdir w p) (force_configure p) (use_versions p);
             OpenMenuconfig],
            Ok tt).
Proof.
  intros ns fuel w round cp p options app Hm Ht Hp Hn Hx Hl Ho.
  cbn [cmd_configure]. rewrite Hp, Hn.
  unfold configure_attempt, kraft_configure.
  rewrite Hx, Hm. cbn [negb bind emit call]. rewrite Hl, Ht.
  cbn [call_ List.app]. rewrite Ho. reflexivity.
Qed.

Lemma X14_menu_editor_with_terminal_witness :
  invocation "CONFIG_" 1 (world true app_two 0)
    (params None None None true ["a"] [] [])
  = Some ([Preflight; Log Debug (Text "Configuring /app...");
           FromWorkdir "/app" false []; OpenMenuconfig],
          Ok tt).
Proof.
  apply (X14_menu_editor_with_terminal "CONFIG_" 0 (world true app_two 0) 0
           (Some (params None None None true ["a"] [] []))
           (params None None None true ["a"] [] []) ["CONFIG_a=y"] app_two);
    reflexivity.
Defined.

(** X15.  Declining to overwrite ends the invocation: for an application
    that is already configured, outside force mode and without the menu
    editor, when the operator answers no, the refusal is logged and the exit
    code is 1; no target is resolved, nothing is configured or saved. *)
Theorem X15_declined_overwrite_exits :
  forall (ns : string) (fuel : nat) (w : World) (round : nat)
         (cp : option Params) (p : Params)
         (options : list string) (app : Application),
    show_menuconfig p = false ->
    force_configure p = false ->
    preflight w round = None ->
    normalize ns (yes p) (no p) (opts p) = Options options ->
    path_exists w (effective_workdir w p) = true ->
    from_workdir w round (effective_workdir w p) false (use_versions p) = Ok app ->
    is_configured app = true ->
    confirm w round (overwrite_question (effective_workdir w p)) = false ->
    cmd_configure ns (S fuel) w round cp p
    = Some ([Preflight;
             Log Debug (Text ("Configuring " ++ effective_workdir w p ++ "...")%string);
             FromWorkdir (effective_workdir w p) false (use_versions p);
             Confirm (overwrite_question (effective_workdir w p));
             Log Critical (OfExn (CannotConfigureApplication (effective_workdir w p)))]
            ++ verbose_traceback w,
            Raise (SystemExit 1)).
Proof.
  intros ns fuel w round cp p options app Hm Hf Hp Hn Hx Hl Hi Hc.
  cbn [cmd_configure]. rewrite Hp, Hn.
  unfold configure_attempt, kraft_configure.
  rewrite Hx, Hm, Hf. cbn [negb bind emit call]. rewrite Hl.
  unfold configure_loaded, already_configured_check.
  rewrite Hi. cbn [andb negb bind emit]. rewrite Hc.
  cbn [raise bind List.app]. reflexivity.
Qed.

Lemma X15_declined_overwrite_exits_witness :
  let w := {| forward_keeps_params := true; isatty := true; verbose := false; getcwd := "/app";
              path_exists := fun _ => true; preflight := fun _ => None;
              from_workdir := fun _ _ _ _ =>
                Ok {| targets := [t_kvm]; binaries := []; is_configured := true |};
              open_menuconfig := fun _ => None;
              confirm := fun _ _ => false;
              prompt := fun _ choices => first_choice choices;
              configure := fun _ _ _ _ => None;
              save_yaml := fun _ => None;
              pull := fun _ _ => None |} in
  invocation "CONFIG_" 1 w (params None None None false [] [] [])
  = Some ([Preflight; Log Debug (Text "Configuring /app...");
           FromWorkdir "/app" false [];
           Confirm "/app is already configured, would you like to overwrite configuration?";
           Log Critical (OfExn (CannotConfigureApplication "/app"))],
          Raise (SystemExit 1)).
Proof.
  intros w.
  apply (X15_declined_overwrite_exits "CONFIG_" 0 w 0
           (Some (params None None None false [] [] []))
           (params None None None false [] [] []) []
           {| targets := [t_kvm]; binaries := []; is_configured := true |});
    reflexivity.
Defined.

(** X16.  A working directory that does not exist ends the invocation
    before anything is loaded: the [ValueError] of [kraft_configure] is
    logged and the exit code is 1. *)
Theorem X16_missing_workdir_exits :
  forall (ns : string) (fuel : nat) (w : World) (round : nat)
         (cp : option Params) (p : Params)
         (options : list string),
    preflight w round = None ->
    normalize ns (yes p) (no p) (opts p) = Options options ->
    path_exists w (effective_workdir w p) = false ->
    cmd_configure ns (S fuel) w round cp p
    = Some ([Preflight;
             Log Critical
               (OfExn (ValueError ("working directory is empty: "
                                   ++ effective_workdir w p)%string))]
            ++ verbose_traceback w,
            Raise (SystemExit 1)).
Proof.
  intros ns fuel w round cp p options Hp Hn Hx.
  cbn [cmd_configure]. rewrite Hp, Hn.
  unfold configure_attempt, kraft_configure. rewrite Hx.
  cbn [negb raise List.app]. reflexivity.
Qed.

Lemma X16_missing_workdir_exits_witness :
  let w := {| forward_keeps_params := true; isatty := true; verbose := true; getcwd := "/nowhere";
              path_exists := fun _ => false; preflight := fun _ => None;
              from_workdir := fun _ _ _ _ => Ok app_two;
              open_menuconfig := fun _ => None;
              confirm := fun _ _ => true;
              prompt := fun _ choices => first_choice choices;
              configure := fun _ _ _ _ => None;
              save_yaml := fun _ => None;
              pull := fun _ _ => None |} in
  invocation "CONFIG_" 1 w (params None None None false [] [] [])
  = Some ([Preflight;
           Log Critical (OfExn (ValueError "working directory is empty: /nowhere"));
           Log Critical Traceback],
          Raise (SystemExit 1)).
Proof.
  intros w.
  apply (X16_missing_workdir_exits "CONFIG_" 0 w 0
           (Some (params None None None false [] [] []))
           (params None None None false [] [] []) []); reflexivity.
Defined.

(** X17.  Only [MissingComponent] is recovered from: when the attempt
    raises any other exception, nothing is fetched and nothing re-entered;
    an [Exception] is logged and turned into exit code 1, a [SystemExit]
    passes through. *)
Theorem X17_other_failures_are_not_retried :
  forall (ns : string) (fuel : nat) (w : World) (round : nat)
         (cp : option Params) (p : Params)
         (options : list string) (e : exn),
    preflight w round = None ->
    normalize ns (yes p) (no p) (opts p) = Options options ->
    snd (configure_attempt w round p options) = Raise e ->
    (forall c, e <> MissingComponent c) ->
    exists tr,
      cmd_configure ns (S fuel) w round cp p
      = Some (tr, Raise (if is_Exception e then SystemExit 1 else e))
      /\ fetches tr = 0 /\ reentries tr = 0
      /\ (is_Exception e = true -> In (Log Critical (OfExn e)) tr).
Proof.
  intros ns fuel w round cp p options e Hp Hn Ha He.
  cbn [cmd_configure]. rewrite Hp, Hn.
  destruct (configure_attempt_counts w round p options) as [Hf Hr].
  destruct (verbose_traceback_counts w) as [Vf Vr].
  destruct (configure_attempt w round p options) as [tr r].
  cbn [fst snd] in *. subst r.
  destruct e as [c|c| | | | | ];
    try (exfalso; apply (He c); reflexivity);
    cbn [is_Exception]; eexists; (split; [reflexivity|]);
    change (Preflight :: ?l) with ([Preflight] ++ l);
    rewrite ?fetches_app, ?reentries_app, Hf, Hr, ?Vf, ?Vr;
    (split; [reflexivity|]); (split; [reflexivity|]);
    intros H; try discriminate H;
    apply in_or_app; right; apply in_or_app; right; now left.
Qed.

Lemma X17_other_failures_are_not_retried_witness :
  exists tr,
    invocation "CONFIG_" 1 (world false app_two 0)
      (params None None None true [] [] [])
    = Some (tr, Raise (if is_Exception
                            (KraftError "Cannot open menuconfig in non-TTY environment")
                       then SystemExit 1
                       else KraftError "Cannot open menuconfig in non-TTY environment"))
    /\ fetches tr = 0 /\ reentries tr = 0
    /\ (is_Exception (KraftError "Cannot open menuconfig in non-TTY environment") = true ->
        In (Log Critical (OfExn (KraftError "Cannot open menuconfig in non-TTY environment"))) tr).
Proof.
  apply (X17_other_failures_are_not_retried "CONFIG_" 0 (world false app_two 0)
           0 (Some (params None None None true [] [] []))
           (params None None None true [] [] []) []).
  - reflexivity.
  - reflexivity.
  - reflexivity.
  - discriminate.
Defined.

(** X18.  Declining the fetch ends the invocation without fetching or
    re-entering: outside force mode, when the attempt raises
    [MissingComponent] and the operator answers no, the exit code is 1 in
    verbose mode, and the command returns normally otherwise. *)
Theorem X18_declined_fetch :
  forall (ns : string) (fuel : nat) (w : World) (round : nat)
         (cp : option Params) (p : Params)
         (options : list string) (c : string),
    preflight w round = None ->
    normalize ns (yes p) (no p) (opts p) = Options options ->
    snd (configure_attempt w round p options) = Raise (MissingComponent c) ->
    force_configure p = false ->
    confirm w round (pull_question c) = false ->
    exists tr,
      cmd_configure ns (S fuel) w round cp p
      = Some (tr, if verbose w then Raise (SystemExit 1) else Ok tt)
      /\ fetches tr = 0 /\ reentries tr = 0
      /\ In (Confirm (pull_question c)) tr.
Proof.
  intros ns fuel w round cp p options c Hp Hn Ha Hf Hc.
  cbn [cmd_configure]. rewrite Hp, Hn.
  destruct (configure_attempt_counts w round p options) as [Cf Cr].
  destruct (configure_attempt w round p options) as [tr r].
  cbn [fst snd] in *. subst r.
  unfold on_missing_component. rewrite Hf, Hc. cbn [orb].
  destruct (verbose w); eexists; (split; [reflexivity|]);
    change (Preflight :: ?l) with ([Preflight] ++ l);
    rewrite ?fetches_app, ?reentries_app, Cf, Cr;
    (split; [reflexivity|]); (split; [reflexivity|]);
    apply in_or_app; right; apply in_or_app; right;
    cbn [List.app In]; auto.
Qed.

Lemma X18_declined_fetch_witness :
  let w := {| forward_keeps_params := true; isatty := true; verbose := false; getcwd := "/app";
              path_exists := fun _ => true; preflight := fun _ => None;
              from_workdir := fun _ _ _ _ => Ok app_one;
              open_menuconfig := fun _ => None;
              confirm := fun _ _ => false;
              prompt := fun _ choices => first_choice choices;
              configure := fun _ _ _ _ => Some (MissingComponent "lwip");
              save_yaml := fun _ => None;
              pull := fun _ _ => None |} in
  exists tr,
    invocation "CONFIG_" 1 w (params None None None false [] [] [])
    = Some (tr, if verbose w then Raise (SystemExit 1) else Ok tt)
    /\ fetches tr = 0 /\ reentries tr = 0
    /\ In (Confirm (pull_question "lwip")) tr.
Proof.
  intros w.
  apply (X18_declined_fetch "CONFIG_" 0 w 0
           (Some (params None None None false [] [] []))
           (params None None None false [] [] []) [] "lwip"); reflexivity.
Defined.

(** X19.  A failed fetch ends the invocation: when the attempt raises
    [MissingComponent], the fetch is agreed to (force mode, or the operator
    says yes) and [kraft_list_pull] raises an [Exception], there is exactly
    one fetch, no re-entry, and the exit code is 1. *)
Theorem X19_failed_fetch_exits :
  forall (ns : string) (fuel : nat) (w : World) (round : nat)
         (cp : option Params) (p : Params)
         (options : list string) (c : string) (e : exn),
    preflight w round = None ->
    normalize ns (yes p) (no p) (opts p) = Options options ->
    snd (configure_attempt w round p options) = Raise (MissingComponent c) ->
    force_configure p || confirm w round (pull_question c) = true ->
    pull w round c = Some e ->
    is_Exception e = true ->
    exists tr,
      cmd_configure ns (S fuel) w round cp p = Some (tr, Raise (SystemExit 1))
      /\ fetches tr = 1 /\ reentries tr = 0.
Proof.
  intros ns fuel w round cp p options c e Hp Hn Ha Hy Hpull He.
  cbn [cmd_configure]. rewrite Hp, Hn.
  destruct (configure_attempt_counts w round p options) as [Cf Cr].
  destruct (verbose_traceback_counts w) as [Vf Vr].
  destruct (configure_attempt w round p options) as [tr r].
  cbn [fst snd] in *. subst r.
  unfold on_missing_component. rewrite Hy, Hpull, He.
  eexists. split; [reflexivity|].
  change (Preflight :: ?l) with ([Preflight] ++ l).
  rewrite !fetches_app, !reentries_app, Cf, Cr, Vf, Vr.
  destruct (force_configure p); split; reflexivity.
Qed.

Lemma X19_failed_fetch_exits_witness :
  let w := {| forward_keeps_params := true; isatty := true; verbose := false; getcwd := "/app";
              path_exists := fun _ => true; preflight := fun _ => None;
              from_workdir := fun _ _ _ _ => Ok app_one;
              open_menuconfig := fun _ => None;
              confirm := fun _ _ => true;
              prompt := fun _ choices => first_choice choices;
              configure := fun _ _ _ _ => Some (MissingComponent "lwip");
              save_yaml := fun _ => None;
              pull := fun _ _ => Some (OtherException "no network") |} in
  exists tr,
    invocation "CONFIG_" 1 w (params None None None false [] [] [])
    = Some (tr, Raise (SystemExit 1))
    /\ fetches tr = 1 /\ reentries tr = 0.
Proof.
  intros w.
  apply (X19_failed_fetch_exits "CONFIG_" 0 w 0
           (Some (params None None None false [] [] []))
           (params None None None false [] [] []) [] "lwip"
           (OtherException "no network")); reflexivity.
Defined.

(** ** Conditions kept over the whole invocation, re-entries included *)

Section InvocationFacts.
Variable ns : string.
Variable w : World.

(** A condition [P] holds for every call of a run when a condition [I] on
    the context parameters and the arguments of an entry passes on to the
    re-entry, and [P] holds for the calls of the attempt and of the recovery
    of every entry that satisfies [I]. *)
Lemma cmd_configure_all (I : option Params -> Params -> Prop)
    (P : event -> Prop) :
  (forall cp p, I cp p -> I (subcontext w (forwarded cp)) (forwarded cp)) ->
  (forall cp p options ev,
      I cp p ->
      normalize ns (yes p) (no p) (opts p) = Options options ->
      attempt_event (force_configure p) options ev -> P ev) ->
  P Preflight ->
  (forall l m, P (Log l m)) ->
  (forall c, P (Pull c)) ->
  P Forward ->
  (forall cp p q, I cp p -> force_configure p = false -> P (Confirm q)) ->
  forall (fuel round : nat) (cp : option Params) (p : Params)
         (tr : list event) (r : res unit),
    I cp p ->
    cmd_configure ns fuel w round cp p = Some (tr, r) ->
    Forall P tr.
Proof.
  intros Hnext Hatt Hpre Hlog Hpull Hfwd Hconf.
  assert (Hvt : Forall P (verbose_traceback w)).
  { unfold verbose_traceback. destruct (verbose w); repeat constructor.
    apply Hlog. }
  induction fuel as [|fuel IH]; intros round cp p tr r HI H; [discriminate H|].
  cbn [cmd_configure] in H.
  destruct (preflight w round) as [e|].
  { injection H as <- <-. repeat constructor. apply Hpre. }
  destruct (normalize ns (yes p) (no p) (opts p)) as [options|[n|o|]] eqn:Hn.
  2-4: injection H as <- <-; repeat constructor; try apply Hpre; apply Hlog.
  assert (Hat : Forall P (fst (configure_attempt w round p options))).
  { unfold configure_attempt.
    eapply Forall_impl; [|apply kraft_configure_events].
    intros ev. apply (Hatt cp p options ev HI Hn). }
  destruct (configure_attempt w round p options) as [tr0 [u|e]];
    cbn [fst] in Hat.
  { injection H as <- <-. constructor; [apply Hpre | exact Hat]. }
  destruct e as [code|c|x|x|x| |x].
  all: try (injection H as <- <-; constructor; [apply Hpre|];
            first [ exact Hat
                  | apply Forall_app; split; [exact Hat|];
                    cbn [List.app]; constructor; [apply Hlog | apply Hvt] ]).
  unfold on_missing_component in H.
  destruct (force_configure p) eqn:Ef; cbn [orb List.app] in H.
  - destruct (pull w round c) as [e|].
    + destruct (is_Exception e); injection H as <- <-;
        (constructor; [apply Hpre|]); apply Forall_app; (split; [exact Hat|]);
        constructor; try apply Hpull; try apply Hvt; constructor.
    + destruct (cmd_configure ns fuel w (S round)
                  (subcontext w (forwarded cp)) (forwarded cp))
        as [[tr' r']|] eqn:Eagain; [|discriminate H].
      injection H as <- <-.
      constructor; [apply Hpre|]. apply Forall_app. split; [exact Hat|].
      constructor; [apply Hpull|]. constructor; [apply Hfwd|].
      apply (IH (S round) _ _ tr' r' (Hnext cp p HI) Eagain).
  - assert (Hq : forall q, P (Confirm q)) by (intros q; apply (Hconf cp p q HI Ef)).
    destruct (confirm w round (pull_question c)).
    + destruct (pull w round c) as [e|].
      * destruct (is_Exception e); injection H as <- <-;
          (constructor; [apply Hpre|]); apply Forall_app; (split; [exact Hat|]);
          (constructor; [apply Hlog|]); (constructor; [apply Hq|]);
          constructor; try apply Hpull; try apply Hvt; constructor.
      * destruct (cmd_configure ns fuel w (S round)
                    (subcontext w (forwarded cp)) (forwarded cp))
          as [[tr' r']|] eqn:Eagain; [|discriminate H].
        injection H as <- <-.
        constructor; [apply Hpre|]. apply Forall_app. split; [exact Hat|].
        constructor; [apply Hlog|]. constructor; [apply Hq|].
        constructor; [apply Hpull|]. constructor; [apply Hfwd|].
        apply (IH (S round) _ _ tr' r' (Hnext cp p HI) Eagain).
    + destruct (verbose w); injection H as <- <-;
        (constructor; [apply Hpre|]); apply Forall_app; (split; [exact Hat|]);
        (constructor; [apply Hlog|]); (constructor; [apply Hq|]);
        repeat constructor; apply Hlog.
Qed.

End InvocationFacts.

(** X20.  In force mode nothing is asked and everything is forced: in a
    run entered with [force_configure] set, re-entries included, no
    confirmation is asked, every load of the application is made with
    [force_init=True] and every [app.configure] gets
    [force_configure=True]; this holds whatever parameters click hands to
    the re-entries. *)
Theorem X20_force_mode_asks_nothing :
  forall (ns : string) (w : World) (fuel round : nat)
         (cp : option Params) (p : Params) (tr : list event) (r : res unit),
    force_configure p = true ->
    cmd_configure ns fuel w round cp p = Some (tr, r) ->
    Forall forced_event tr.
Proof.
  intros ns w fuel round cp p tr r Hf H.
  apply (cmd_configure_all ns w (fun _ q => force_configure q = true)
           forced_event)
    with (fuel := fuel) (round := round) (cp := cp) (p := p) (r := r);
    try assumption; try exact I; try (intros; exact I).
  - intros cp' p' _. reflexivity.
  - intros cp' p' options ev Hp' _ Hev. rewrite Hp' in Hev.
    destruct ev; cbn [attempt_event forced_event] in *;
      first [ exact I | contradiction | exact Hev | discriminate Hev
            | destruct Hev as [_ Hfl]; now apply Hfl ].
  - intros cp' p' q Hp' Hp''. congruence.
Qed.

Lemma X20_force_mode_asks_nothing_witness :
  Forall forced_event
    [Preflight; Log Debug (Text "Configuring /app...");
     FromWorkdir "/app" true []; Configure (TObj t_xen) [] true;
     Pull "lwip"; Forward;
     Preflight; Log Debug (Text "Configuring /app...");
     FromWorkdir "/app" true [];
     Prompt ["app_kvm-x86_64 (kvm)"; "app_xen-arm64 (xen)"];
     Configure TNone [] true;
     SaveYaml].
Proof.
  apply (X20_force_mode_asks_nothing "CONFIG_" (world_click7 true app_two 1) 2 0
           None
           (with_force (params (Some "xen") None None false [] [] []) true)
           _ (Ok tt)); reflexivity.
Defined.



Section OutcomeFacts.
Variable ns : string.
Variable w : World.

Lemma configure_loaded_ok (round : nat) (app : Application) (wd : string)
    (target plat arch : option string) (force : bool) (options : list string)
    (u : unit) :
  snd (configure_loaded w round app wd target plat arch force options) = Ok u ->
  exists pre,
    fst (configure_loaded w round app wd target plat arch force options)
    = pre ++ [SaveYaml].
Proof.
  unfold configure_loaded.
  destruct (already_configured_check w round app wd force) as [tr0 [f0|e]];
    cbn [bind fst snd]; [|discriminate].
  destruct (target_resolution w round app target arch plat) as [tr1 [v|e]];
    cbn [bind fst snd call_]; [|discriminate].
  destruct (configure w round v options f0); cbn [fst snd List.app];
    [discriminate|].
  destruct (save_yaml w round); cbn [fst snd]; [discriminate|].
  intros _. exists (tr0 ++ tr1 ++ [Configure v options f0]).
  rewrite <- !app_assoc. reflexivity.
Qed.

(** An attempt that returns has, as its last call, saved the configuration
    or opened the menu editor. *)
Lemma kraft_configure_ok (round : nat)
    (workdir target plat arch : option string) (force menu : bool)
    (options uv : list string) (u : unit) :
  snd (kraft_configure w round workdir target plat arch force menu options uv)
  = Ok u ->
  exists pre,
    fst (kraft_configure w round workdir target plat arch force menu options uv)
    = pre ++ [SaveYaml]
    \/ fst (kraft_configure w round workdir target plat arch force menu options uv)
       = pre ++ [OpenMenuconfig].
Proof.
  unfold kraft_configure.
  destruct workdir as [wd|]; [|discriminate].
  destruct (negb (path_exists w wd)); [discriminate|].
  cbn [bind emit call].
  destruct (from_workdir w round wd force uv) as [app|e]; [|discriminate].
  destruct menu.
  - destruct (isatty w); cbn [call_ raise fst snd List.app]; [|discriminate].
    intros _. eexists [_; _]. right. reflexivity.
  - pose proof (configure_loaded_ok round app wd target plat arch force options u)
      as Hs.
    destruct (configure_loaded w round app wd target plat arch force options)
      as [tr r].
    cbn [fst snd List.app] in *. intros H.
    destruct (Hs H) as [pre ->]. eexists (_ :: _ :: pre). left. reflexivity.
Qed.

Ltac count_calls :=
  unfold fetches, reentries, verbose_traceback in *;
  destruct (verbose w);
  repeat (rewrite ?filter_app, ?length_app;
          cbn [filter is_pull is_forward length List.app]).

Lemma balance (fuel : nat) :
  forall (round : nat) (cp : option Params) (p : Params) (tr : list event)
         (r : res unit),
    cmd_configure ns fuel w round cp p = Some (tr, r) ->
    reentries tr <= fetches tr
    /\ fetches tr <= S (reentries tr)
    /\ reentries tr < fuel
    /\ (r = Ok tt -> fetches tr = reentries tr).
Proof.
  induction fuel as [|fuel IH]; intros round cp p tr r H; [discriminate H|].
  cbn [cmd_configure] in H.
  destruct (preflight w round) as [e|].
  { injection H as <- <-. cbn. repeat split; try lia; try discriminate. }
  destruct (normalize ns (yes p) (no p) (opts p)) as [options|[n|o|]].
  2-4: injection H as <- <-; cbn; repeat split; try lia; try discriminate.
  destruct (configure_attempt_counts w round p options) as [Cf Cr].
  destruct (configure_attempt w round p options) as [tr0 [u|e]];
    cbn [fst] in Cf, Cr.
  { injection H as <- <-. count_calls; repeat split; try lia; intros; lia. }
  destruct e as [code|c|x|x|x| |x].
  all: try (injection H as <- <-; count_calls;
            repeat split; try lia; try discriminate).
  unfold on_missing_component in H.
  destruct (force_configure p || confirm w round (pull_question c)).
  - destruct (pull w round c) as [e|].
    + destruct (is_Exception e); injection H as <- <-;
        destruct (force_configure p); count_calls;
        repeat split; try lia; try discriminate.
    + destruct (cmd_configure ns fuel w (S round)
                  (subcontext w (forwarded cp)) (forwarded cp))
        as [[tr' r']|] eqn:Eagain; [|discriminate H].
      destruct (IH _ _ _ _ _ Eagain) as (B1 & B2 & B3 & B4).
      injection H as <- <-.
      destruct (force_configure p); count_calls;
        repeat split; try lia; try (intros Hr; specialize (B4 Hr); lia).
  - destruct (verbose w) eqn:Ev; injection H as <- <-;
      destruct (force_configure p); count_calls;
      repeat split; try lia; try discriminate.
Qed.

Lemma returns_normally (fuel : nat) :
  forall (round : nat) (cp : option Params) (p : Params) (tr : list event),
    cmd_configure ns fuel w round cp p = Some (tr, Ok tt) ->
    (exists pre, tr = pre ++ [SaveYaml])
    \/ (exists pre, tr = pre ++ [OpenMenuconfig])
    \/ (verbose w = false /\ force_configure p = false
        /\ exists options tr0 c,
             normalize ns (yes p) (no p) (opts p) = Options options
             /\ configure_attempt w round p options
                = (tr0, Raise (MissingComponent c))
             /\ confirm w round (pull_question c) = false
             /\ tr = Preflight :: tr0
                     ++ [Log Warn (OfExn (MissingComponent c));
                         Confirm (pull_question c)]).
Proof.
  induction fuel as [|fuel IH]; intros round cp p tr H; [discriminate H|].
  cbn [cmd_configure] in H.
  destruct (preflight w round) as [e|]; [discriminate H|].
  destruct (normalize ns (yes p) (no p) (opts p)) as [options|[n|o|]] eqn:Hn;
    try discriminate H.
  pose proof (kraft_configure_ok round (Some (effective_workdir w p)) (target p)
                (plat p) (arch p) (force_configure p) (show_menuconfig p)
                options (use_versions p)) as Hok.
  fold (configure_attempt w round p options) in Hok.
  destruct (configure_attempt w round p options) as [tr0 [u|e]] eqn:Ha;
    cbn [fst snd] in Hok.
  { injection H as <-. destruct (Hok u eq_refl) as [pre [->| ->]];
      [left | right; left]; exists (Preflight :: pre); reflexivity. }
  destruct e as [code|c|x|x|x| |x]; try discriminate H.
  unfold on_missing_component in H.
  assert (Hagain :
    forall pre tr',
      cmd_configure ns fuel w (S round) (subcontext w (forwarded cp))
        (forwarded cp) = Some (tr', Ok tt) ->
      (exists pre', pre ++ tr' = pre' ++ [SaveYaml])
      \/ (exists pre', pre ++ tr' = pre' ++ [OpenMenuconfig])).
  { intros pre tr' Eagain.
    destruct (IH _ _ _ _ Eagain) as [[pre' ->]|[[pre' ->]|(_ & Hf & _)]].
    - left. exists (pre ++ pre'). now rewrite app_assoc.
    - right. exists (pre ++ pre'). now rewrite app_assoc.
    - discriminate Hf. }
  destruct (force_configure p) eqn:Ef; cbn [orb List.app] in H.
  - destruct (pull w round c) as [e|].
    + destruct (is_Exception e); discriminate H.
    + destruct (cmd_configure ns fuel w (S round)
                  (subcontext w (forwarded cp)) (forwarded cp))
        as [[tr' r']|] eqn:Eagain; [|discriminate H].
      injection H as <- ->.
      destruct (Hagain (Preflight :: tr0 ++ [Pull c; Forward]) tr' eq_refl)
        as [[pre' E]|[pre' E]]; [left | right; left]; exists pre';
        rewrite <- E; cbn [List.app]; now rewrite <- app_assoc.
  - destruct (confirm w round (pull_question c)) eqn:Ec.
    + destruct (pull w round c) as [e|].
      * destruct (is_Exception e); discriminate H.
      * destruct (cmd_configure ns fuel w (S round)
                    (subcontext w (forwarded cp)) (forwarded cp))
          as [[tr' r']|] eqn:Eagain; [|discriminate H].
        injection H as <- ->.
        destruct (Hagain (Preflight :: tr0
                            ++ [Log Warn (OfExn (MissingComponent c));
                                Confirm (pull_question c); Pull c; Forward])
                    tr' eq_refl)
          as [[pre' E]|[pre' E]]; [left | right; left]; exists pre';
          rewrite <- E; cbn [List.app]; now rewrite <- app_assoc.
    + destruct (verbose w) eqn:Ev; [discriminate H|].
      injection H as <-. right. right.
      split; [reflexivity|]. split; [reflexivity|].
      exists options, tr0, c. repeat split; reflexivity || assumption.
Qed.

End OutcomeFacts.

(** X22.  Fetches and re-entries stay in step: in every invocation that
    ends, each re-entry follows a fetch, at most one fetch (a failed one, the
    last) is not followed by a re-entry, the number of re-entries is below
    the number of entries, and an invocation that returns normally has
    re-entered after every fetch. *)
Theorem X22_fetches_and_reentries_balance :
  forall (ns : string) (w : World) (fuel round : nat)
         (cp : option Params) (p : Params)
         (tr : list event) (r : res unit),
    cmd_configure ns fuel w round cp p = Some (tr, r) ->
    reentries tr <= fetches tr
    /\ fetches tr <= S (reentries tr)
    /\ reentries tr < fuel
    /\ (r = Ok tt -> fetches tr = reentries tr).
Proof.
  intros ns w fuel round cp p tr r H. now apply (balance ns w fuel round cp p).
Qed.

Lemma X22_fetches_and_reentries_balance_witness :
  exists tr,
    invocation "CONFIG_" 3 (world true app_two 2)
      (params (Some "xen") None None false [] [] []) = Some (tr, Ok tt)
    /\ reentries tr <= fetches tr
    /\ fetches tr <= S (reentries tr)
    /\ reentries tr < 3
    /\ (Ok tt = Ok tt -> fetches tr = reentries tr).
Proof.
  eexists. split; [reflexivity|].
  apply (X22_fetches_and_reentries_balance "CONFIG_" (world true app_two 2) 3 0
           (Some (params (Some "xen") None None false [] [] []))
           (params (Some "xen") None None false [] [] [])).
  reflexivity.
Defined.

(** X23.  A normal return means one of three things: the last call of the
    run saved the configuration; the last call opened the menu editor; or,
    outside verbose mode and outside force mode, the attempt of this very
    entry failed with [MissingComponent], the operator was asked whether to
    fetch it and answered no, and nothing else was done (no fetch, no
    re-entry). *)
Theorem X23_what_a_normal_return_means :
  forall (ns : string) (w : World) (fuel round : nat)
         (cp : option Params) (p : Params)
         (tr : list event),
    cmd_configure ns fuel w round cp p = Some (tr, Ok tt) ->
    (exists pre, tr = pre ++ [SaveYaml])
    \/ (exists pre, tr = pre ++ [OpenMenuconfig])
    \/ (verbose w = false /\ force_configure p = false
        /\ exists options tr0 c,
             normalize ns (yes p) (no p) (opts p) = Options options
             /\ configure_attempt w round p options
                = (tr0, Raise (MissingComponent c))
             /\ confirm w round (pull_question c) = false
             /\ tr = Preflight :: tr0
                     ++ [Log Warn (OfExn (MissingComponent c));
                         Confirm (pull_question c)]).
Proof.
  intros ns w fuel round cp p tr H.
  now apply (returns_normally ns w fuel round cp p).
Qed.

Lemma X23_what_a_normal_return_means_witness :
  let w := {| forward_keeps_params := true; isatty := true; verbose := false;
              getcwd := "/app";
              path_exists := fun _ => true; preflight := fun _ => None;
              from_workdir := fun _ _ _ _ => Ok app_one;
              open_menuconfig := fun _ => None;
              confirm := fun _ _ => false;
              prompt := fun _ choices => first_choice choices;
              configure := fun _ _ _ _ => Some (MissingComponent "lwip");
              save_yaml := fun _ => None;
              pull := fun _ _ => None |} in
  let p := params None None None false [] [] [] in
  let tr := [Preflight; Log Debug (Text "Configuring /app...");
             FromWorkdir "/app" false []; Configure (TObj t_kvm) [] false;
             Log Warn (OfExn (MissingComponent "lwip"));
             Confirm "Would you like to pull lwip?"] in
  (exists pre, tr = pre ++ [SaveYaml])
  \/ (exists pre, tr = pre ++ [OpenMenuconfig])
  \/ (verbose w = false /\ force_configure p = false
      /\ exists options tr0 c,
           normalize "CONFIG_" (yes p) (no p) (opts p) = Options options
           /\ configure_attempt w 0 p options
              = (tr0, Raise (MissingComponent c))
           /\ confirm w 0 (pull_question c) = false
           /\ tr = Preflight :: tr0
                   ++ [Log Warn (OfExn (MissingComponent c));
                       Confirm (pull_question c)]).
Proof.
  intros w p tr.
  apply (X23_what_a_normal_return_means "CONFIG_" w 1 0 (Some p) p tr).
  reflexivity.
Defined.
